(** * The Matrix channel of [src/channels/matrix.ts]

    A shallow embedding of the [MatrixChannel] class: its connection flag,
    its outgoing queue, the timeline handler that classifies inbound events,
    [connect], [sendMessage], [disconnect] and [flushOutgoingQueue].

    The class is asynchronous JavaScript.  Everything between two [await]s
    runs without interruption, so a method is modelled as a state
    transformer over [World]; what the homeserver answers to a call, and
    whether [disconnect] is called while the answer is awaited, is read from
    a [Transport] script.  Calls made on the SDK client, callbacks handed to
    the host and log lines are recorded in the world, oldest first.

    [connect] starts [flushOutgoingQueue] without awaiting it.  The flush is
    therefore a run of its own: [connect] returns as soon as the sync
    handler has settled its promise, and the world it is looked at in is the
    one the flush has reached after some number of its iterations. *)

From Stdlib Require Import ZArith.
From stdpp Require Import base option list strings gmap.

Local Open Scope string_scope.
Local Open Scope list_scope.

(** ** Errors *)

Inductive Error : Type := mkError (message : string).

Inductive Result (A : Type) : Type :=
| Ok (a : A)
| Throw (e : Error).
Arguments Ok {A} a.
Arguments Throw {A} e.

(** ** Data of the adapter *)

(** An item of [outgoingQueue]: [{ jid: string; text: string }]. *)
Record QueuedMessage : Type := { jid : string; text : string }.

(** [RegisteredGroup] is imported from [../types.js]; the adapter only tests
    whether a room id has an entry, so the entry is kept opaque. *)
Inductive RegisteredGroup : Type := GroupConfig (folder : string).

(** The object literal passed to [opts.onMessage]. *)
Record NewMessage : Type := {
  id : string;
  chat_jid : string;
  sender : string;
  sender_name : string;
  content : string;
  timestamp : string;
  is_from_me : bool;
  is_bot_message : bool
}.

(** Invocations of the two callbacks of [MatrixChannelOpts]. *)
Inductive Callback : Type :=
| OnChatMetadata (chatJid ts name : string)
| OnMessage (chatJid : string) (msg : NewMessage).

(** Calls made on [sdk] and on [this.client].  [SendText] carries whether the
    promise of [client.sendMessage] was fulfilled. *)
Inductive ClientCall : Type :=
| CreateClient (baseUrl : string) (accessToken user : option string)
| Login (user password : string)
| Subscribe (event : string)
| StartClient
| StopClient
| SendText (roomId body : string) (delivered : bool).

(** The calls that reach the homeserver; [sdk.createClient] and the handler
    registrations only build local objects. *)
Definition is_network_call (c : ClientCall) : bool :=
  match c with
  | Login _ _ | StartClient | SendText _ _ _ => true
  | CreateClient _ _ _ | Subscribe _ | StopClient => false
  end.

Inductive Level : Type := info | warn | error | debug.

(** ** The transport script *)

Inductive Settled : Type := Resolved | Rejected (err : Error).

(** What happens while one [client.sendMessage] promise is pending: how it
    settles, and whether [disconnect] was called in the meantime. *)
Record Reply : Type := { settled : Settled; hangup : bool }.

Record LoginResponse : Type := { user_id : string; access_token : string }.

(** The first [ClientEvent.Sync] state, or the 30 s timer firing first. *)
Inductive SyncSignal : Type := SyncState (state : string) | SyncTimeout.

Record Transport : Type := {
  sendReply : nat -> Reply;
  loginReply : Result LoginResponse;
  syncSignal : SyncSignal
}.

(** ** The world *)

(** [connected], [userId] and [outgoingQueue] are the private fields of the
    class.  [client] is assigned by [sdk.createClient] in [connect] and
    nowhere else, so it is defined exactly when such a call is on [wire]
    (see [has_client]).  [sends] counts the [client.sendMessage] promises
    awaited so far and indexes the transport script.  [registry] is the
    host's table behind [opts.registeredGroups]; the adapter never writes
    it. *)
Record World : Type := {
  connected : bool;
  userId : string;
  outgoingQueue : list QueuedMessage;
  sends : nat;
  wire : list ClientCall;
  callbacks : list Callback;
  logs : list (Level * string);
  registry : gmap string RegisteredGroup
}.

(** The state of a freshly constructed channel. *)
Definition new_channel (reg : gmap string RegisteredGroup) : World :=
  {| connected := false; userId := ""; outgoingQueue := [];
     sends := 0; wire := []; callbacks := []; logs := []; registry := reg |}.

Definition set_connected (b : bool) (w : World) : World :=
  {| connected := b; userId := userId w; outgoingQueue := outgoingQueue w;
     sends := sends w; wire := wire w; callbacks := callbacks w;
     logs := logs w; registry := registry w |}.

Definition set_userId (u : string) (w : World) : World :=
  {| connected := connected w; userId := u; outgoingQueue := outgoingQueue w;
     sends := sends w; wire := wire w; callbacks := callbacks w;
     logs := logs w; registry := registry w |}.

Definition set_outgoingQueue (q : list QueuedMessage) (w : World) : World :=
  {| connected := connected w; userId := userId w; outgoingQueue := q;
     sends := sends w; wire := wire w; callbacks := callbacks w;
     logs := logs w; registry := registry w |}.

Definition set_sends (n : nat) (w : World) : World :=
  {| connected := connected w; userId := userId w;
     outgoingQueue := outgoingQueue w;
     sends := n; wire := wire w; callbacks := callbacks w;
     logs := logs w; registry := registry w |}.

Definition set_wire (l : list ClientCall) (w : World) : World :=
  {| connected := connected w; userId := userId w;
     outgoingQueue := outgoingQueue w;
     sends := sends w; wire := l; callbacks := callbacks w;
     logs := logs w; registry := registry w |}.

Definition set_callbacks (l : list Callback) (w : World) : World :=
  {| connected := connected w; userId := userId w;
     outgoingQueue := outgoingQueue w;
     sends := sends w; wire := wire w; callbacks := l;
     logs := logs w; registry := registry w |}.

Definition set_logs (l : list (Level * string)) (w : World) : World :=
  {| connected := connected w; userId := userId w;
     outgoingQueue := outgoingQueue w;
     sends := sends w; wire := wire w; callbacks := callbacks w;
     logs := l; registry := registry w |}.

(** The host replaces its table of registered groups. *)
Definition host_registers (reg : gmap string RegisteredGroup) (w : World) : World :=
  {| connected := connected w; userId := userId w;
     outgoingQueue := outgoingQueue w;
     sends := sends w; wire := wire w; callbacks := callbacks w;
     logs := logs w; registry := reg |}.

(** ** A state and exception monad *)

Definition M (A : Type) : Type := World -> Result A * World.

Global Instance M_ret : MRet M := fun A a w => (Ok a, w).

Global Instance M_bind : MBind M := fun A B f m w =>
  match m w with
  | (Ok a, w') => f a w'
  | (Throw e, w') => (Throw e, w')
  end.

Definition throw {A : Type} (e : Error) : M A := fun w => (Throw e, w).

(** [try { body } catch (err) { handler }] *)
Definition try_catch {A : Type} (body : M A) (handler : Error -> M A) : M A :=
  fun w =>
    match body w with
    | (Ok a, w') => (Ok a, w')
    | (Throw e, w') => handler e w'
    end.

Definition gets {A : Type} (f : World -> A) : M A := fun w => (Ok (f w), w).
Definition modify (f : World -> World) : M unit := fun w => (Ok tt, f w).

Definition logger (l : Level) (msg : string) : M unit :=
  modify (fun w => set_logs (logs w ++ [(l, msg)]) w).

Definition client_call (c : ClientCall) : M unit :=
  modify (fun w => set_wire (wire w ++ [c]) w).

(** A call of [opts.onChatMetadata] or [opts.onMessage]; the host's
    callbacks are taken to return normally. *)
Definition host_call (c : Callback) : M unit :=
  modify (fun w => set_callbacks (callbacks w ++ [c]) w).

(** [this.outgoingQueue.push(item)] *)
Definition push (item : QueuedMessage) : M unit :=
  modify (fun w => set_outgoingQueue (outgoingQueue w ++ [item]) w).

(** [this.outgoingQueue.shift()]: [undefined] on an empty array. *)
Definition shift : M (option QueuedMessage) := fun w =>
  match outgoingQueue w with
  | [] => (Ok None, w)
  | item :: rest => (Ok (Some item), set_outgoingQueue rest w)
  end.

(** ** JavaScript values *)

(** A [string | undefined] is truthy when it is a non-empty string. *)
Definition truthy (v : option string) : bool :=
  match v with
  | Some s => negb (String.eqb s "")
  | None => false
  end.

(** [v || d] for a [string | undefined] on the left. *)
Definition or_else (v : option string) (d : string) : string :=
  match v with
  | Some s => if String.eqb s "" then d else s
  | None => d
  end.

(** [s.startsWith(p)] *)
Fixpoint startsWith (s p : string) {struct p} : bool :=
  match p with
  | EmptyString => true
  | String c p' =>
      match s with
      | EmptyString => false
      | String d s' => Ascii.eqb c d && startsWith s' p'
      end
  end.

(** ** Outbound: [disconnect], [sendMessage], [flushOutgoingQueue] *)

Definition isConnected : M bool := gets connected.

(** Matrix room IDs start with [!]. *)
Definition ownsJid (jid : string) : bool := startsWith jid "!".

(** Whether [this.client] has been assigned. *)
Definition has_client (w : World) : bool :=
  existsb (fun c => match c with CreateClient _ _ _ => true | _ => false end)
          (wire w).

(** [this.connected = false; this.client?.stopClient()] *)
Definition disconnect : M unit :=
  modify (set_connected false) ;;
  (c ← gets has_client;
   if c : bool then client_call StopClient else mret tt).

(** [await this.client.sendMessage(roomId, { msgtype: MsgType.Text, body })]:
    the request goes out, the caller is suspended, and the next reply of the
    script tells whether [disconnect] ran meanwhile and how the promise
    settled.  [sendMessage] reaches this call only on a connected channel;
    [connected] is set by the sync handler alone, which [connect] registers
    after it has created the client (see [connected_has_client]). *)
Definition client_sendMessage (T : Transport) (roomId body : string) : M unit :=
  n ← gets sends;
  let r := sendReply T n in
  modify (set_sends (S n)) ;;
  client_call (SendText roomId body
                 (match settled r with Resolved => true | Rejected _ => false end)) ;;
  (if hangup r then disconnect else mret tt) ;;
  match settled r with
  | Resolved => mret tt
  | Rejected err => throw err
  end.

Definition sendMessage (T : Transport) (roomId text : string) : M unit :=
  c ← gets connected;
  if negb c then
    push {| jid := roomId; text := text |} ;;
    logger info "Matrix disconnected, message queued"
  else
    try_catch
      (client_sendMessage T roomId text ;;
       logger info "Message sent")
      (fun err =>
         push {| jid := roomId; text := text |} ;;
         logger warn "Failed to send, message queued").

(** The guard of the [while] loop. *)
Definition flush_guard (w : World) : bool :=
  (0 <? length (outgoingQueue w))%nat && connected w.

(** One iteration of the loop body.  Reading [item.jid] of [undefined] is a
    [TypeError] raised inside the [try]. *)
Definition flush_body (T : Transport) : M unit :=
  item ← shift;
  try_catch
    (match item with
     | Some item => sendMessage T (jid item) (text item)
     | None => throw (mkError "TypeError")
     end)
    (fun err => logger error "Failed to flush queued message").

(** The loop, with a bound on the number of iterations; [None] when the bound
    is reached with the guard still true. *)
Fixpoint flushOutgoingQueue (T : Transport) (fuel : nat) (w : World)
  : option (Result unit * World) :=
  if flush_guard w then
    match fuel with
    | O => None
    | S fuel' =>
        match flush_body T w with
        | (Ok _, w') => flushOutgoingQueue T fuel' w'
        | (Throw e, w') => Some (Throw e, w')
        end
    end
  else Some (Ok tt, w).

(** The world after at most [n] iterations of the loop. *)
Fixpoint flush_iter (T : Transport) (n : nat) (w : World) : World :=
  match n with
  | O => w
  | S n' => if flush_guard w then flush_iter T n' (snd (flush_body T w)) else w
  end.

(** ** Inbound: the [RoomEvent.Timeline] handler *)

Record RoomMember : Type := { member_name : string }.

Record Room : Type := {
  roomId : string;
  room_name : string;
  getMember : string -> option RoomMember
}.

(** A value read from an event's content, where the handler expects a
    string: absent, a string, or something else, of which only the
    truthiness matters. *)
Inductive JsValue : Type :=
| JsUndefined
| JsString (s : string)
| JsOther (truthy : bool).

(** [v || '']: the string itself, the empty string for a falsy value, and
    the value itself when it is truthy and not a string. *)
Definition or_empty (v : JsValue) : JsValue :=
  match v with
  | JsString s => JsString s
  | JsOther true => JsOther true
  | JsUndefined | JsOther false => JsString ""
  end.

(** The time values [new Date(ms)] holds: at most 8.64e15 ms either side of
    the epoch.  On any other, [toISOString()] throws a [RangeError]. *)
Definition valid_time (ms : Z) : bool :=
  (-8640000000000000 <=? ms)%Z && (ms <=? 8640000000000000)%Z.

(** The getters of a [MatrixEvent] the handler reads; [getContent_body] is
    [event.getContent().body], which the SDK leaves untyped; [getTs] is the
    integer [origin_server_ts]. *)
Record MatrixEvent : Type := {
  getType : string;
  getSender : option string;
  getContent_body : JsValue;
  getTs : Z;
  getId : option string
}.

(** [this.opts.registeredGroups()]: the host's table as it is now. *)
Definition registeredGroups : M (gmap string RegisteredGroup) := gets registry.

(** [ASSISTANT_NAME] is imported from [../config.js]; [toISOString] is the
    text [new Date(ms).toISOString()] gives for a valid time value, and the
    call throws on the others before any callback is made.
    [body.startsWith] exists on strings only, so a truthy body that is not a
    string throws there, after the metadata callback.  [groups[roomId]] is
    the lookup of an entry of the host's table: entries are objects, hence
    truthy, and room ids start with [!] (see [ownsJid]), so no inherited
    property is hit. *)
Definition timelineHandler (ASSISTANT_NAME : string) (toISOString : Z -> string)
    (event : MatrixEvent) (room : option Room) : M unit :=
  match room with
  | None => mret tt
  | Some room =>
    if negb (String.eqb (getType event) "m.room.message") then mret tt else
    let sender := getSender event in
    self ← gets userId;
    if bool_decide (sender = Some self) then mret tt else
    c ← gets connected;
    if negb c then mret tt else
    let roomId := roomId room in
    let body := or_empty (getContent_body event) in
    if negb (valid_time (getTs event)) then
      throw (mkError "RangeError: Invalid time value")
    else
    let timestamp := toISOString (getTs event) in
    let roomName := or_else (Some (room_name room)) roomId in
    host_call (OnChatMetadata roomId timestamp roomName) ;;
    groups ← registeredGroups;
    match groups !! roomId with
    | Some _ =>
        let senderName :=
          or_else (Some (or_else (member_name <$> getMember room (or_else sender ""))
                                 (or_else sender "")))
                  "unknown" in
        match body with
        | JsString body =>
            let isBotMessage := startsWith body (ASSISTANT_NAME +:+ ":") in
            host_call (OnMessage roomId
              {| id := or_else (getId event) "";
                 chat_jid := roomId;
                 sender := or_else sender "";
                 sender_name := senderName;
                 content := body;
                 timestamp := timestamp;
                 is_from_me := false;
                 is_bot_message := isBotMessage |})
        | _ => throw (mkError "TypeError: body.startsWith is not a function")
        end
    | None => mret tt
    end
  end.

(** ** Lifecycle: [connect] *)

Record ProcessEnv : Type := {
  MATRIX_HOMESERVER : option string;
  MATRIX_USERNAME : option string;
  MATRIX_PASSWORD : option string;
  MATRIX_ACCESS_TOKEN : option string;
  MATRIX_USER_ID : option string
}.

(** [await this.client.login('m.login.password', { user, password })] *)
Definition client_login (T : Transport) (user password : string) : M LoginResponse :=
  client_call (Login user password) ;;
  match loginReply T with
  | Ok r => mret r
  | Throw e => throw e
  end.

(** [connect] up to the registration of the two event handlers. *)
Definition connect_setup (T : Transport) (env : ProcessEnv) : M unit :=
  let homeserverUrl := MATRIX_HOMESERVER env in
  let username := MATRIX_USERNAME env in
  let password := MATRIX_PASSWORD env in
  let accessToken := MATRIX_ACCESS_TOKEN env in
  if negb (truthy homeserverUrl) then
    throw (mkError "MATRIX_HOMESERVER environment variable is required")
  else
    let baseUrl := or_else homeserverUrl "" in
    client_call (CreateClient baseUrl None None) ;;
    (if truthy accessToken then
       client_call (CreateClient baseUrl accessToken (MATRIX_USER_ID env)) ;;
       modify (set_userId (or_else (MATRIX_USER_ID env) "")) ;;
       logger info "Using existing access token"
     else if truthy username && truthy password then
       loginResponse ← client_login T (or_else username "") (or_else password "");
       modify (set_userId (user_id loginResponse)) ;;
       client_call (CreateClient baseUrl (Some (access_token loginResponse))
                      (Some (user_id loginResponse))) ;;
       logger info "Logged in to Matrix"
     else
       throw (mkError
         "Either MATRIX_ACCESS_TOKEN or MATRIX_USERNAME+MATRIX_PASSWORD required")) ;;
    client_call (Subscribe "RoomMember.membership") ;;
    client_call (Subscribe "Room.timeline").

(** The [ClientEvent.Sync] handler up to the point where it settles the
    promise [connect] awaits: how it settles it, the world then, and whether
    it has started [flushOutgoingQueue] in that world (without awaiting
    it). *)
Definition syncHandler (state : string) (w : World) : Result unit * World * bool :=
  if String.eqb state "PREPARED" then
    (Ok tt,
     snd ((modify (set_connected true) ;;
           logger info "Matrix sync complete, connected") w),
     true)
  else (Throw (mkError ("Matrix sync failed with state: " +:+ state)), w, false).

(** The flush the sync handler started, [flushOutgoingQueue().catch(...)],
    after at most [n] iterations of its loop. *)
Fixpoint flush_progress (T : Transport) (n : nat) (w : World) : World :=
  match n with
  | O => w
  | S n' =>
      if flush_guard w then
        match flush_body T w with
        | (Ok _, w') => flush_progress T n' w'
        | (Throw _, w') => snd (logger error "Failed to flush outgoing queue" w')
        end
      else w
  end.

(** The sync handler followed to the end of the flush it started: [None]
    when that flush does not end within [fuel] iterations.  [connect] does
    not wait for this. *)
Definition onSync (T : Transport) (state : string) (fuel : nat) (w : World)
  : option (Result unit * World) :=
  match syncHandler state w with
  | (Ok _, w1, true) =>
      match flushOutgoingQueue T fuel w1 with
      | None => None
      | Some (Ok _, w2) => Some (Ok tt, w2)
      | Some (Throw _, w2) =>
          Some (Ok tt, snd (logger error "Failed to flush outgoing queue" w2))
      end
  | (r, w1, _) => Some (r, w1)
  end.

(** [connect].  It returns when its last promise settles: with the error of
    the timer or of the sync handler, or normally once the handler has seen
    [PREPARED].  The flush started by the handler goes on by itself; [seen]
    is the number of its iterations that have been completed when the
    returned world is looked at.  (An iteration under way has popped its
    item and sent the request; the world shows both once the request has
    settled.) *)
Definition connect (T : Transport) (env : ProcessEnv) (seen : nat) (w : World)
  : Result unit * World :=
  match connect_setup T env w with
  | (Throw e, w') => (Throw e, w')
  | (Ok _, w1) =>
      let w2 := snd ((client_call (Subscribe "sync") ;;
                      client_call StartClient) w1) in
      match syncSignal T with
      | SyncTimeout => (Throw (mkError "Matrix sync timed out after 30s"), w2)
      | SyncState state =>
          match syncHandler state w2 with
          | (Ok _, w3, true) => (Ok tt, flush_progress T seen w3)
          | (r, w3, _) => (r, w3)
          end
      end
  end.

(** ** Runs *)

(** A sequence of [sendMessage] calls, each awaited before the next. *)
Fixpoint sendAll (T : Transport) (msgs : list QueuedMessage) : M unit :=
  match msgs with
  | [] => mret tt
  | m :: rest => sendMessage T (jid m) (text m) ;; sendAll T rest
  end.

(** The [SendText] entries of a call log, as the (item, delivered) pairs in
    the order the requests went out. *)
Fixpoint transmissions (l : list ClientCall) : list (QueuedMessage * bool) :=
  match l with
  | [] => []
  | SendText r b ok :: l' => ({| jid := r; text := b |}, ok) :: transmissions l'
  | _ :: l' => transmissions l'
  end.

(** What a run of the loop shows from outside: how it returned, and then the
    connection flag, the queue and the requests made. *)
Definition observe (run : option (Result unit * World))
  : option (Result unit * bool * list QueuedMessage * list (QueuedMessage * bool)) :=
  match run with
  | Some (r, w) => Some (r, connected w, outgoingQueue w, transmissions (wire w))
  | None => None
  end.

(** [ev] gets past the four early returns of the handler, in room [r]. *)
Definition survives (ev : MatrixEvent) (room : option Room) (r : Room) (w : World)
  : Prop :=
  room = Some r /\ getType ev = "m.room.message" /\
  getSender ev <> Some (userId w) /\ connected w = true.

(** The metadata callback the handler makes for [ev] in room [r]. *)
Definition metadata_of (toISOString : Z -> string) (ev : MatrixEvent) (r : Room)
  : Callback :=
  OnChatMetadata (roomId r) (toISOString (getTs ev))
    (or_else (Some (room_name r)) (roomId r)).

(** Timeline events delivered one after the other.  Each is a call of its
    own by the emitter: what a run of the handler throws goes to the
    emitter, and the next event is handled in the world that run left. *)
Fixpoint timelineAll (ASSISTANT_NAME : string) (toISOString : Z -> string)
    (evs : list (MatrixEvent * option Room)) : M unit :=
  fun w =>
    match evs with
    | [] => (Ok tt, w)
    | (ev, room) :: rest =>
        timelineAll ASSISTANT_NAME toISOString rest
          (snd (timelineHandler ASSISTANT_NAME toISOString ev room w))
    end.

(** The items whose request was fulfilled, in the order they went out. *)
Fixpoint fulfilled (l : list (QueuedMessage * bool)) : list QueuedMessage :=
  match l with
  | [] => []
  | (m, true) :: l' => m :: fulfilled l'
  | (_, false) :: l' => fulfilled l'
  end.

(** ** The remaining methods: auto-join, [setTyping], [getJoinedRooms] *)

(** Requests made on [this.client] by the membership handler and by
    [setTyping]. *)
Inductive SideCall : Type :=
| JoinRoom (room : string)
| SendTyping (room : string) (isTyping : bool) (timeoutMs : Z).

(** The fields of the [member] argument the membership handler reads. *)
Record Membership : Type := {
  membership : string;
  member_userId : string;
  member_roomId : string
}.

(** The [RoomMemberEvent.Membership] handler.  [joined] is how the promise of
    [client.joinRoom] settles; the handler does not wait for it, its [then]
    and [catch] only log. *)
Definition membershipHandler (joined : Settled) (member : Membership) (w : World)
  : Result unit * World * list SideCall :=
  if String.eqb (membership member) "invite"
     && String.eqb (member_userId member) (userId w)
  then
    let settle :=
      match joined with
      | Resolved => logger info "Auto-joined room on invite"
      | Rejected _ => logger error "Failed to auto-join room"
      end in
    (Ok tt, snd (settle w), [JoinRoom (member_roomId member)])
  else (Ok tt, w, []).

(** [setTyping]: [typed] is how the promise of [client.sendTyping]
    settles.  Before [connect] has created the client, reading
    [this.client.sendTyping] is a [TypeError] raised inside the [try], and
    no request is made. *)
Definition setTyping (typed : Settled) (room : string) (isTyping : bool) (w : World)
  : Result unit * World * list SideCall :=
  if has_client w then
    let '(r, w') :=
      try_catch
        (match typed with
         | Resolved => mret tt
         | Rejected err => throw err
         end)
        (fun err => logger debug "Failed to update typing status") w in
    (r, w', [SendTyping room isTyping (if isTyping then 30000%Z else 0%Z)])
  else
    let '(r, w') :=
      try_catch
        (throw (mkError "TypeError"))
        (fun err => logger debug "Failed to update typing status") w in
    (r, w', []).

(** An entry of the array [getJoinedRooms] returns. *)
Record JoinedRoom : Type := { joined_roomId : string; joined_name : string }.

(** [getJoinedRooms], on the rooms [this.client.getRooms()] returns. *)
Definition getJoinedRooms (rooms : list Room) : list JoinedRoom :=
  map (fun room =>
         {| joined_roomId := roomId room;
            joined_name := or_else (Some (room_name room)) (roomId room) |})
      rooms.

(** ** Example inputs *)

Definition replyOk : Reply := {| settled := Resolved; hangup := false |}.
Definition replyFail : Reply :=
  {| settled := Rejected (mkError "M_LIMIT_EXCEEDED"); hangup := false |}.
Definition replyOkHangup : Reply := {| settled := Resolved; hangup := true |}.
Definition replyFailHangup : Reply :=
  {| settled := Rejected (mkError "ECONNRESET"); hangup := true |}.

Definition scripted (replies : nat -> Reply) : Transport :=
  {| sendReply := replies;
     loginReply := Ok {| user_id := "@bot:example.org"; access_token := "syt_abc" |};
     syncSignal := SyncState "PREPARED" |}.

(** Every request succeeds. *)
Definition T_ok : Transport := scripted (fun _ => replyOk).

(** The first request fails, every later one succeeds. *)
Definition T_fail_first : Transport :=
  scripted (fun n => match n with O => replyFail | _ => replyOk end).

(** Only the second request succeeds. *)
Definition T_only_second : Transport :=
  scripted (fun n => match n with 1 => replyOk | _ => replyFail end).

(** [disconnect] is called while the first request is pending. *)
Definition T_hangup_ok : Transport :=
  scripted (fun n => match n with O => replyOkHangup | _ => replyOk end).
Definition T_hangup_fail : Transport :=
  scripted (fun n => match n with O => replyFailHangup | _ => replyOk end).

Definition qA1 : QueuedMessage := {| jid := "!a:example.org"; text := "m1" |}.
Definition qA2 : QueuedMessage := {| jid := "!a:example.org"; text := "m2" |}.
Definition qB2 : QueuedMessage := {| jid := "!b:example.org"; text := "m2" |}.

Definition groupA : gmap string RegisteredGroup :=
  {[ "!a:example.org" := GroupConfig "main" ]}.

(** A connected channel whose queue holds [q]. *)
Definition online (q : list QueuedMessage) : World :=
  set_wire [CreateClient "https://matrix.example.org" (Some "syt_abc")
              (Some "@bot:example.org")]
    (set_userId "@bot:example.org"
       (set_connected true (set_outgoingQueue q (new_channel ∅)))).

Definition offline (q : list QueuedMessage) : World :=
  set_outgoingQueue q (new_channel ∅).

Definition roomA : Room :=
  {| roomId := "!a:example.org"; room_name := "Family";
     getMember := fun u => if String.eqb u "@ann:example.org"
                           then Some {| member_name := "Ann" |} else None |}.


Definition message_from (who body : string) : MatrixEvent :=
  {| getType := "m.room.message"; getSender := Some who;
     getContent_body := JsString body; getTs := 1700000000000%Z;
     getId := Some "$ev1" |}.

Definition isoStub (ms : Z) : string := "2023-11-14T22:13:20.000Z".

Definition envNoCredentials : ProcessEnv :=
  {| MATRIX_HOMESERVER := Some "https://matrix.example.org";
     MATRIX_USERNAME := Some "bot"; MATRIX_PASSWORD := None;
     MATRIX_ACCESS_TOKEN := None; MATRIX_USER_ID := None |}.

Definition envToken : ProcessEnv :=
  {| MATRIX_HOMESERVER := Some "https://matrix.example.org";
     MATRIX_USERNAME := None; MATRIX_PASSWORD := None;
     MATRIX_ACCESS_TOKEN := Some "syt_abc";
     MATRIX_USER_ID := Some "@bot:example.org" |}.

(** A connected channel of user [@bot:example.org] whose host has
    registered room [!a:example.org] only. *)
Definition listening : World := host_registers groupA (online []).

Definition annSaysHello : MatrixEvent :=
  message_from "@ann:example.org" "Andy: hello".

(** The message the handler builds from [annSaysHello] in [roomA] when the
    assistant is called Andy. *)
Definition annHello : NewMessage :=
  {| id := "$ev1"; chat_jid := "!a:example.org";
     sender := "@ann:example.org"; sender_name := "Ann";
     content := "Andy: hello"; timestamp := "2023-11-14T22:13:20.000Z";
     is_from_me := false; is_bot_message := true |}.

Definition envPassword : ProcessEnv :=
  {| MATRIX_HOMESERVER := Some "https://matrix.example.org";
     MATRIX_USERNAME := Some "bot"; MATRIX_PASSWORD := Some "hunter2";
     MATRIX_ACCESS_TOKEN := None; MATRIX_USER_ID := None |}.

(** A token without [MATRIX_USER_ID]. *)
Definition envTokenOnly : ProcessEnv :=
  {| MATRIX_HOMESERVER := Some "https://matrix.example.org";
     MATRIX_USERNAME := Some "bot"; MATRIX_PASSWORD := Some "hunter2";
     MATRIX_ACCESS_TOKEN := Some "syt_abc"; MATRIX_USER_ID := None |}.

(** The login request is refused. *)
Definition T_login_refused : Transport :=
  {| sendReply := fun _ => replyOk;
     loginReply := Throw (mkError "M_FORBIDDEN");
     syncSignal := SyncState "PREPARED" |}.

(** The first sync reports an error state. *)
Definition T_sync_error : Transport :=
  {| sendReply := fun _ => replyOk;
     loginReply := Ok {| user_id := "@bot:example.org"; access_token := "syt_abc" |};
     syncSignal := SyncState "ERROR" |}.

(** Every request is rejected. *)
Definition T_all_fail : Transport := scripted (fun _ => replyFail).

(** The first two requests are rejected, the later ones fulfilled. *)
Definition T_fail_twice : Transport :=
  scripted (fun n => match n with 0 | 1 => replyFail | _ => replyOk end).

(** Credentials, but no homeserver. *)
Definition envNoServer : ProcessEnv :=
  {| MATRIX_HOMESERVER := Some "";
     MATRIX_USERNAME := Some "bot"; MATRIX_PASSWORD := Some "hunter2";
     MATRIX_ACCESS_TOKEN := Some "syt_abc";
     MATRIX_USER_ID := Some "@bot:example.org" |}.

Definition botAccount : LoginResponse :=
  {| user_id := "@bot:example.org"; access_token := "syt_abc" |}.

Definition inviteBot : Membership :=
  {| membership := "invite"; member_userId := "@bot:example.org";
     member_roomId := "!b:example.org" |}.

Definition bodyless : MatrixEvent :=
  {| getType := "m.room.message"; getSender := None;
     getContent_body := JsUndefined; getTs := 1700000000000%Z; getId := None |}.



(** * Properties *)

(** ** Running the monad *)

Ltac run :=
  unfold sendMessage, client_sendMessage, disconnect, has_client, push, shift, logger,
    client_call, host_call, isConnected, registeredGroups, try_catch, throw,
    gets, modify, mbind, M_bind, mret, M_ret in *; cbn in *.

Lemma transmissions_app l1 l2 :
  transmissions (l1 ++ l2) = transmissions l1 ++ transmissions l2.
Proof.
  induction l1 as [|c l1 IH]; [reflexivity|].
  destruct c; cbn; rewrite ?IH; reflexivity.
Qed.

Section Outbound.

Variable T : Transport.

Lemma sendMessage_offline roomId text w :
  connected w = false ->
  sendMessage T roomId text w =
    (Ok tt, set_logs (logs w ++ [(info, "Matrix disconnected, message queued")])
              (set_outgoingQueue (outgoingQueue w ++ [{| jid := roomId; text := text |}]) w)).
Proof. intros H. run. rewrite H. reflexivity. Qed.

(** What one awaited [client.sendMessage] leaves behind, seen through
    [sendMessage] on a connected channel. *)
Lemma sendMessage_online roomId text w :
  connected w = true ->
  let r := sendReply T (sends w) in
  let ok := match settled r with Resolved => true | Rejected _ => false end in
  let w' := snd (sendMessage T roomId text w) in
  fst (sendMessage T roomId text w) = Ok tt /\
  connected w' = negb (hangup r) /\
  sends w' = S (sends w) /\
  outgoingQueue w' =
    outgoingQueue w ++ (if ok then [] else [{| jid := roomId; text := text |}]) /\
  transmissions (wire w') =
    transmissions (wire w) ++ [({| jid := roomId; text := text |}, ok)] /\
  callbacks w' = callbacks w /\ registry w' = registry w /\ userId w' = userId w.
Proof.
  intros H. run. rewrite H. cbn.
  destruct (sendReply T (sends w)) as [[|err] [|]]; cbn;
    try match goal with
        | |- context [existsb ?f ?l] => destruct (existsb f l)
        end; cbn;
    rewrite ?transmissions_app, ?app_nil_r; cbn; rewrite ?app_nil_r;
    repeat split; rewrite ?H; reflexivity.
Qed.

(** [sendMessage] never throws. *)
Lemma sendMessage_returns roomId text w :
  fst (sendMessage T roomId text w) = Ok tt.
Proof.
  destruct (connected w) eqn:H.
  - exact (proj1 (sendMessage_online roomId text w H)).
  - rewrite sendMessage_offline by exact H. reflexivity.
Qed.

Lemma flush_guard_true w :
  flush_guard w = true <->
  connected w = true /\ exists item rest, outgoingQueue w = item :: rest.
Proof.
  unfold flush_guard. rewrite andb_true_iff, Nat.ltb_lt.
  split.
  - intros [Hlen Hc]. split; [exact Hc|].
    destruct (outgoingQueue w) as [|item rest]; [cbn in Hlen; lia | eauto].
  - intros [Hc (item & rest & Hq)]. rewrite Hq. cbn. split; [lia | exact Hc].
Qed.

Lemma flush_body_returns w : fst (flush_body T w) = Ok tt.
Proof.
  unfold flush_body, shift, try_catch, mbind, M_bind.
  destruct (outgoingQueue w) as [|item rest].
  - reflexivity.
  - pose proof (sendMessage_returns (jid item) (text item) (set_outgoingQueue rest w)) as H.
    destruct (sendMessage T (jid item) (text item) (set_outgoingQueue rest w)) as [[[]|e] w'];
      [reflexivity | discriminate H].
Qed.

(** One iteration on a connected channel: the head is popped, one request
    goes out, and the item comes back at the tail exactly when the request
    is rejected. *)
Lemma flush_body_online w item rest :
  connected w = true -> outgoingQueue w = item :: rest ->
  let r := sendReply T (sends w) in
  let ok := match settled r with Resolved => true | Rejected _ => false end in
  let w' := snd (flush_body T w) in
  connected w' = negb (hangup r) /\
  sends w' = S (sends w) /\
  outgoingQueue w' = rest ++ (if ok then [] else [item]) /\
  transmissions (wire w') = transmissions (wire w) ++ [(item, ok)] /\
  callbacks w' = callbacks w /\ registry w' = registry w /\ userId w' = userId w.
Proof.
  intros Hc Hq.
  pose proof (sendMessage_online (jid item) (text item) (set_outgoingQueue rest w) Hc) as H.
  cbv zeta in H. cbv zeta.
  unfold flush_body, shift, try_catch, mbind, M_bind. rewrite Hq.
  destruct (sendMessage T (jid item) (text item) (set_outgoingQueue rest w)) as [[[]|e] w'];
    cbn in H; [|destruct H as [H _]; discriminate H].
  destruct item as [j t]. cbn in *. tauto.
Qed.

Lemma flush_split k fuel w :
  flushOutgoingQueue T (k + fuel) w = flushOutgoingQueue T fuel (flush_iter T k w).
Proof.
  revert w. induction k as [|k IH]; intros w; [reflexivity|].
  cbn [Nat.add flushOutgoingQueue flush_iter].
  destruct (flush_guard w) eqn:Hg.
  - pose proof (flush_body_returns w) as Hr.
    destruct (flush_body T w) as [[[]|e] w']; [|discriminate Hr].
    apply IH.
  - destruct fuel; cbn; rewrite Hg; reflexivity.
Qed.

Lemma flush_done fuel w :
  flush_guard w = false -> flushOutgoingQueue T fuel w = Some (Ok tt, w).
Proof. intros H. destruct fuel; cbn; rewrite H; reflexivity. Qed.

Lemma flush_next fuel w :
  flush_guard w = true ->
  flushOutgoingQueue T (S fuel) w = flushOutgoingQueue T fuel (snd (flush_body T w)).
Proof.
  intros H. cbn. rewrite H.
  pose proof (flush_body_returns w) as Hr.
  destruct (flush_body T w) as [[[]|e] w']; [reflexivity | discriminate Hr].
Qed.

Lemma flush_out_of_fuel w :
  flush_guard w = true -> flushOutgoingQueue T 0 w = None.
Proof. intros H. cbn. rewrite H. reflexivity. Qed.

(** The loop returns only through its guard. *)
Lemma flush_exit fuel w r w' :
  flushOutgoingQueue T fuel w = Some (r, w') ->
  r = Ok tt /\ flush_guard w' = false.
Proof.
  revert w. induction fuel as [|fuel IH]; intros w H;
    destruct (flush_guard w) eqn:Hg.
  - rewrite flush_out_of_fuel in H by exact Hg. discriminate H.
  - rewrite flush_done in H by exact Hg. injection H as <- <-. auto.
  - rewrite flush_next in H by exact Hg. eapply IH, H.
  - rewrite flush_done in H by exact Hg. injection H as <- <-. auto.
Qed.

(** A flush in which every request is fulfilled and nobody disconnects
    sends the queue from head to tail and empties it. *)
Lemma flush_drains q : forall w fuel,
  connected w = true -> outgoingQueue w = q ->
  (forall k, k < length q -> sendReply T (sends w + k) = replyOk) ->
  length q <= fuel ->
  exists w',
    flushOutgoingQueue T fuel w = Some (Ok tt, w') /\
    outgoingQueue w' = [] /\ connected w' = true /\
    transmissions (wire w') =
      transmissions (wire w) ++ map (fun m => (m, true)) q.
Proof.
  induction q as [|item rest IH]; intros w fuel Hc Hq Hok Hfuel.
  - exists w. rewrite flush_done, app_nil_r; [auto|].
    unfold flush_guard. rewrite Hq. reflexivity.
  - destruct fuel as [|fuel]; [cbn in Hfuel; lia|].
    rewrite flush_next by (apply flush_guard_true; eauto).
    destruct (flush_body_online w item rest Hc Hq)
      as (Hc' & Hs' & Hq' & Htr' & _).
    cbv zeta in *.
    pose proof (Hok 0 ltac:(cbn; lia)) as H0. rewrite Nat.add_0_r in H0.
    rewrite H0 in Hc', Hq', Htr'.
    cbn in Hc', Hq', Htr'. rewrite app_nil_r in Hq'.
    destruct (IH (snd (flush_body T w)) fuel Hc' Hq') as (w' & Hrun & ? & ? & Htr).
    + intros k Hk. rewrite Hs'. replace (S (sends w) + k) with (sends w + S k) by lia.
      apply Hok. cbn. lia.
    + cbn in Hfuel. lia.
    + exists w'. rewrite Hrun, Htr, Htr', <- app_assoc. auto.
Qed.

(** While the first pass over the queue lasts, the i-th request of a flush
    carries the i-th item of the queue it started from. *)
Lemma flush_iter_requests n : forall w,
  exists att,
    transmissions (wire (flush_iter T n w)) = transmissions (wire w) ++ att /\
    forall i x, i < length (outgoingQueue w) ->
      att.*1 !! i = Some x -> outgoingQueue w !! i = Some x.
Proof.
  induction n as [|n IH]; intros w.
  - exists []. rewrite app_nil_r. split; [reflexivity | intros i x _ H; discriminate H].
  - cbn [flush_iter]. destruct (flush_guard w) eqn:Hg.
    + apply flush_guard_true in Hg as [Hc (item & rest & Hq)].
      destruct (flush_body_online w item rest Hc Hq) as (_ & _ & Hq' & Htr' & _).
      cbv zeta in *.
      destruct (IH (snd (flush_body T w))) as (att & Htr & Hatt).
      eexists (_ :: att). rewrite Htr, Htr', <- app_assoc. split; [reflexivity|].
      intros [|i] x Hi Hx; rewrite Hq in *; cbn in *; [exact Hx|].
      specialize (Hatt i x). rewrite Hq', length_app in Hatt.
      rewrite <- (lookup_app_l rest (if match settled (sendReply T (sends w)) with
                                       | Resolved => true | Rejected _ => false end
                                    then [] else [item])) by lia.
      apply Hatt; [lia | exact Hx].
    + exists []. rewrite app_nil_r. split; [reflexivity | intros i x _ H; discriminate H].
Qed.

Lemma sendAll_offline msgs : forall w,
  connected w = false ->
  let w' := snd (sendAll T msgs w) in
  fst (sendAll T msgs w) = Ok tt /\
  connected w' = false /\
  outgoingQueue w' = outgoingQueue w ++ msgs /\
  wire w' = wire w /\ sends w' = sends w.
Proof.
  induction msgs as [|[j t] rest IH]; intros w Hc; cbv zeta.
  - cbn. rewrite app_nil_r. auto.
  - cbn [sendAll]. unfold mbind, M_bind.
    rewrite sendMessage_offline by exact Hc. cbn [jid text].
    match goal with |- context [sendAll T rest ?w1] =>
      destruct (IH w1 Hc) as (Hr & Hc' & Hq & Hw & Hs) end.
    cbv zeta in *. rewrite Hq, Hw, Hs, Hc', Hr. cbn. rewrite <- app_assoc. auto.
Qed.

(** C4.  [sendMessage] never raises to its caller.  While not connected the
    pair is appended to the tail of the queue and no request is made on the
    transport; while connected, a rejected transmission appends the pair to
    the tail and the error is absorbed. *)
Theorem sendMessage_never_raises roomId text w :
  let item := {| jid := roomId; text := text |} in
  let w' := snd (sendMessage T roomId text w) in
  fst (sendMessage T roomId text w) = Ok tt /\
  (connected w = false ->
     outgoingQueue w' = outgoingQueue w ++ [item] /\
     wire w' = wire w /\ sends w' = sends w) /\
  (connected w = true ->
     forall err, settled (sendReply T (sends w)) = Rejected err ->
     outgoingQueue w' = outgoingQueue w ++ [item] /\
     transmissions (wire w') = transmissions (wire w) ++ [(item, false)]).
Proof.
  cbv zeta. split; [apply sendMessage_returns|]. split.
  - intros Hc. rewrite sendMessage_offline by exact Hc. auto.
  - intros Hc err Herr.
    destruct (sendMessage_online roomId text w Hc) as (_ & _ & _ & Hq & Htr & _).
    cbv zeta in *. rewrite Herr in Hq, Htr. auto.
Qed.

(** C3.  Messages handed to [sendMessage] while the channel is not connected
    are queued without any transmission; when the sync handler then marks
    the channel connected and the flush meets no failure and no disconnect,
    the flush returns, the queue (what it already held, then the calls in
    the order they were issued) has been transmitted in exactly that order,
    and the queue is empty. *)
Theorem queued_while_offline_flushed_in_order msgs fuel w :
  connected w = false ->
  (forall k, k < length (outgoingQueue w ++ msgs) ->
     sendReply T (sends w + k) = replyOk) ->
  length (outgoingQueue w ++ msgs) <= fuel ->
  let w1 := snd (sendAll T msgs w) in
  fst (sendAll T msgs w) = Ok tt /\
  wire w1 = wire w /\
  outgoingQueue w1 = outgoingQueue w ++ msgs /\
  exists w2,
    onSync T "PREPARED" fuel w1 = Some (Ok tt, w2) /\
    outgoingQueue w2 = [] /\
    transmissions (wire w2) =
      transmissions (wire w) ++ map (fun m => (m, true)) (outgoingQueue w ++ msgs).
Proof.
  intros Hc Hok Hfuel.
  destruct (sendAll_offline msgs w Hc) as (Hr & Hc1 & Hq1 & Hw1 & Hs1).
  cbv zeta in *. repeat (split; [assumption|]).
  unfold onSync, syncHandler. run.
  destruct (flush_drains (outgoingQueue w ++ msgs)
              (set_logs (logs (snd (sendAll T msgs w)) ++
                           [(info, "Matrix sync complete, connected")])
                 (set_connected true (snd (sendAll T msgs w)))) fuel)
    as (w2 & Hrun & Hq2 & _ & Htr); cbn; try assumption; try reflexivity.
  - intros k Hk. rewrite Hs1. apply Hok, Hk.
  - exists w2. rewrite Hrun. cbn in Htr. rewrite Hw1 in Htr. auto.
Qed.

(** With nobody disconnecting, a flush that returns has emptied the queue. *)
Lemma flush_connected_ends_empty fuel : forall w r w',
  (forall n, hangup (sendReply T n) = false) ->
  connected w = true ->
  flushOutgoingQueue T fuel w = Some (r, w') ->
  outgoingQueue w' = [] /\ connected w' = true.
Proof.
  induction fuel as [|fuel IH]; intros w r w' Hup Hc H;
    destruct (flush_guard w) eqn:Hg.
  - rewrite flush_out_of_fuel in H by exact Hg. discriminate H.
  - rewrite flush_done in H by exact Hg. injection H as <- <-.
    unfold flush_guard in Hg. rewrite Hc, andb_true_r, Nat.ltb_ge in Hg.
    split; [|exact Hc]. destruct (outgoingQueue w); [reflexivity | cbn in Hg; lia].
  - rewrite flush_next in H by exact Hg.
    apply flush_guard_true in Hg as [_ (item & rest & Hq)].
    destruct (flush_body_online w item rest Hc Hq) as (Hc' & _).
    cbv zeta in Hc'. rewrite Hup in Hc'. eapply IH; eauto.
  - rewrite flush_done in H by exact Hg. injection H as <- <-.
    unfold flush_guard in Hg. rewrite Hc, andb_true_r, Nat.ltb_ge in Hg.
    split; [|exact Hc]. destruct (outgoingQueue w); [reflexivity | cbn in Hg; lia].
Qed.

(** C2 (amended).  Flushing [[i1; i2]] on a connected channel, with the
    transmission of [i1] rejected and that of [i2] fulfilled: once both have
    been tried the queue is exactly [[i1]], re-queued at the tail after [i2]
    went out, nothing skipped or duplicated.  The flush has not completed
    there: the guard still holds, and the same flush retries [i1]; when that
    retry is fulfilled the flush returns with the queue empty. *)
Theorem flush_requeues_failed_head_at_tail i1 i2 err w :
  connected w = true ->
  outgoingQueue w = [i1; i2] ->
  sendReply T (sends w) = {| settled := Rejected err; hangup := false |} ->
  sendReply T (S (sends w)) = replyOk ->
  let w2 := flush_iter T 2 w in
  (outgoingQueue w2 = [i1] /\ connected w2 = true /\
   transmissions (wire w2) = transmissions (wire w) ++ [(i1, false); (i2, true)]) /\
  flushOutgoingQueue T 2 w = None /\
  (settled (sendReply T (S (S (sends w)))) = Resolved ->
   forall fuel, 3 <= fuel ->
   exists w',
     flushOutgoingQueue T fuel w = Some (Ok tt, w') /\
     outgoingQueue w' = [] /\
     transmissions (wire w') =
       transmissions (wire w) ++ [(i1, false); (i2, true); (i1, true)]).
Proof.
  intros Hc Hq H0 H1.
  destruct (flush_body_online w i1 [i2] Hc Hq) as (Hc1 & Hs1 & Hq1 & Htr1 & _).
  cbv zeta in Hc1, Hs1, Hq1, Htr1. rewrite H0 in Hc1, Hq1, Htr1.
  cbn in Hc1, Hq1, Htr1.
  set (w1 := snd (flush_body T w)) in *.
  destruct (flush_body_online w1 i2 [i1] Hc1 Hq1) as (Hc2 & Hs2 & Hq2 & Htr2 & _).
  cbv zeta in Hc2, Hs2, Hq2, Htr2. rewrite Hs1, H1 in Hc2, Hq2, Htr2.
  cbn in Hc2, Hq2, Htr2. rewrite Htr1, <- app_assoc in Htr2. cbn in Htr2.
  set (w2 := snd (flush_body T w1)) in *.
  assert (Hg : flush_guard w = true) by (apply flush_guard_true; eauto).
  assert (Hg1 : flush_guard w1 = true) by (apply flush_guard_true; eauto).
  assert (Hg2 : flush_guard w2 = true) by (apply flush_guard_true; eauto).
  assert (Hit : flush_iter T 2 w = w2)
    by (cbn [flush_iter]; rewrite Hg; fold w1; rewrite Hg1; reflexivity).
  cbv zeta. rewrite Hit. split; [auto|]. split.
  - rewrite (flush_split 2 0), Hit. apply flush_out_of_fuel, Hg2.
  - intros H2 fuel Hfuel.
    replace fuel with (2 + S (fuel - 3)) by lia.
    rewrite flush_split, Hit, flush_next by exact Hg2.
    destruct (flush_body_online w2 i1 [] Hc2 Hq2) as (_ & _ & Hq3 & Htr3 & _).
    cbv zeta in Hq3, Htr3. rewrite Hs2, Hs1, H2 in Hq3, Htr3. cbn in Hq3.
    exists (snd (flush_body T w2)).
    rewrite flush_done by (unfold flush_guard; rewrite Hq3; reflexivity).
    rewrite Htr3, Htr2, <- app_assoc. auto.
Qed.

(** C9 (amended).  Let the k-th iteration of a flush pop [item] and let
    [disconnect] be called while its request is pending.  Then the loop
    terminates at its next guard, and the item is not lost: when the loop
    exits it is back at the tail of the queue if its request was rejected,
    and it has been transmitted if its request was fulfilled. *)
Theorem flush_stops_on_disconnect_keeps_item k fuel w0 item rest :
  let w := flush_iter T k w0 in
  connected w = true ->
  outgoingQueue w = item :: rest ->
  hangup (sendReply T (sends w)) = true ->
  exists w',
    flushOutgoingQueue T (k + S fuel) w0 = Some (Ok tt, w') /\
    connected w' = false /\
    match settled (sendReply T (sends w)) with
    | Rejected _ =>
        outgoingQueue w' = rest ++ [item] /\
        transmissions (wire w') = transmissions (wire w) ++ [(item, false)]
    | Resolved =>
        outgoingQueue w' = rest /\
        transmissions (wire w') = transmissions (wire w) ++ [(item, true)]
    end.
Proof.
  intros w Hc Hq Hup.
  destruct (flush_body_online w item rest Hc Hq) as (Hc' & _ & Hq' & Htr' & _).
  cbv zeta in Hc', Hq', Htr'. rewrite Hup in Hc'. cbn in Hc'.
  exists (snd (flush_body T w)).
  rewrite flush_split. fold w.
  rewrite flush_next by (apply flush_guard_true; eauto).
  rewrite flush_done by (unfold flush_guard; rewrite Hc'; apply andb_false_r).
  split; [reflexivity|]. split; [exact Hc'|].
  destruct (settled (sendReply T (sends w))); cbn in Hq'; rewrite ?app_nil_r in Hq'; auto.
Qed.

(** Every request of a flush carries an item of the queue it started
    from. *)
Lemma flush_iter_requests_queued n : forall w att,
  transmissions (wire (flush_iter T n w)) = transmissions (wire w) ++ att ->
  forall m ok, (m, ok) ∈ att -> m ∈ outgoingQueue w.
Proof.
  induction n as [|n IH]; intros w att Hatt m ok Hin.
  - cbn in Hatt. rewrite <- (app_nil_r (transmissions (wire w))) in Hatt at 1.
    apply app_inv_head in Hatt. subst att. inversion Hin.
  - cbn [flush_iter] in Hatt. destruct (flush_guard w) eqn:Hg.
    + apply flush_guard_true in Hg as [Hc (item & rest & Hq)].
      destruct (flush_body_online w item rest Hc Hq) as (_ & _ & Hq' & Htr' & _).
      cbv zeta in Hq', Htr'.
      destruct (flush_iter_requests n (snd (flush_body T w))) as (att1 & Hatt1 & _).
      rewrite Hatt1, Htr', <- app_assoc in Hatt. apply app_inv_head in Hatt.
      subst att. rewrite Hq. cbn in Hin.
      apply elem_of_cons in Hin as [[= -> _] | Hin]; [left|].
      apply (IH _ _ Hatt1) in Hin. rewrite Hq' in Hin.
      apply elem_of_app in Hin as [Hin | Hin]; [right; exact Hin|].
      destruct (match settled _ with Resolved => true | Rejected _ => false end);
        [inversion Hin | apply list_elem_of_singleton in Hin; subst m; left].
    + rewrite <- (app_nil_r (transmissions (wire w))) in Hatt at 1.
      apply app_inv_head in Hatt. subst att. inversion Hin.
Qed.

(** With pairwise distinct queue entries, an item whose request was
    fulfilled is not requested again by the same flush. *)
Lemma flush_iter_sent_once n : forall w a1 m a2,
  NoDup (outgoingQueue w) ->
  transmissions (wire (flush_iter T n w)) =
    transmissions (wire w) ++ a1 ++ (m, true) :: a2 ->
  forall ok, (m, ok) ∉ a2.
Proof.
  induction n as [|n IH]; intros w a1 m a2 Hnd Hatt ok Hin.
  - cbn in Hatt. rewrite <- (app_nil_r (transmissions (wire w))) in Hatt at 1.
    apply app_inv_head in Hatt. destruct a1; discriminate Hatt.
  - cbn [flush_iter] in Hatt. destruct (flush_guard w) eqn:Hg.
    + apply flush_guard_true in Hg as [Hc (item & rest & Hq)].
      destruct (flush_body_online w item rest Hc Hq) as (_ & _ & Hq' & Htr' & _).
      cbv zeta in Hq', Htr'.
      destruct (flush_iter_requests n (snd (flush_body T w))) as (att1 & Hatt1 & _).
      rewrite Hatt1, Htr', <- app_assoc in Hatt. apply app_inv_head in Hatt.
      rewrite Hq in Hnd. apply NoDup_cons in Hnd as [Hfresh Hnd].
      destruct a1 as [|x a1]; cbn in Hatt.
      * injection Hatt as -> Hok ->. rewrite Hok, app_nil_r in Hq'.
        apply (flush_iter_requests_queued _ _ _ Hatt1) in Hin.
        rewrite Hq' in Hin. contradiction.
      * injection Hatt as _ ->.
        eapply (IH (snd (flush_body T w)) a1 m a2); [|exact Hatt1|exact Hin].
        rewrite Hq'. apply NoDup_app. split; [exact Hnd|]. split.
        -- intros y Hy Hy'. destruct (match settled _ with Resolved => true | Rejected _ => false end);
             [inversion Hy' | apply list_elem_of_singleton in Hy'; subst y; contradiction].
        -- destruct (match settled _ with Resolved => true | Rejected _ => false end);
             [apply NoDup_nil_2 | apply NoDup_singleton].
    + rewrite <- (app_nil_r (transmissions (wire w))) in Hatt at 1.
      apply app_inv_head in Hatt. destruct a1; discriminate Hatt.
Qed.

(** C1 (amended).  Let [m1] stand before [m2] in the queue a flush starts
    from, the entries of the queue being pairwise distinct.  Whatever fails
    and whoever disconnects, and however far the flush gets: [m2] is not
    transmitted before [m1] has been tried at least once, and [m1] is
    fulfilled after a transmission of [m2] only when an earlier attempt on
    [m1], made before that of [m2], was rejected (a rejected item goes back
    to the tail). *)
Theorem flush_tries_earlier_message_first n w l1 m1 l2 m2 l3 pre ok post :
  outgoingQueue w = l1 ++ m1 :: l2 ++ m2 :: l3 ->
  NoDup (outgoingQueue w) ->
  transmissions (wire (flush_iter T n w)) =
    transmissions (wire w) ++ pre ++ (m2, ok) :: post ->
  (exists ok1, (m1, ok1) ∈ pre) /\
  ((m1, true) ∈ post -> (m1, false) ∈ pre).
Proof.
  intros Hq Hnd Htr.
  assert (Hfirst : exists ok1, (m1, ok1) ∈ pre).
  { assert (Hnew : m2 ∉ l1 ++ [m1]).
    { rewrite Hq, (cons_middle m1), app_assoc in Hnd.
      apply NoDup_app in Hnd as (_ & Hsep & _).
      intros Hin. apply (Hsep m2 Hin), elem_of_app. right. left. }
    destruct (flush_iter_requests n w) as (att & Hatt & Hord).
    rewrite Hatt in Htr. apply app_inv_head in Htr. subst att.
    assert (Hlen : length l1 < length (outgoingQueue w))
      by (rewrite Hq, length_app; cbn; lia).
    assert (Hpos : length l1 < length pre).
    { destruct (decide (length l1 < length pre)) as [|Hge]; [assumption|].
      exfalso. apply Hnew.
      assert (Hm2 : outgoingQueue w !! length pre = Some m2).
      { apply Hord; [lia|].
        rewrite fmap_app, lookup_app_r, length_fmap, Nat.sub_diag
          by (rewrite length_fmap; lia).
        reflexivity. }
      rewrite Hq, (cons_middle m1), app_assoc, lookup_app_l in Hm2
        by (rewrite length_app; cbn; lia).
      eapply list_elem_of_lookup_2, Hm2. }
    assert (Hm1 : (pre ++ (m2, ok) :: post).*1 !! length l1 = Some m1).
    { destruct (lookup_lt_is_Some_2 (pre ++ (m2, ok) :: post).*1 (length l1)) as [x Hx].
      { rewrite length_fmap, length_app. lia. }
      rewrite Hx. apply Hord in Hx; [|exact Hlen].
      rewrite Hq, list_lookup_middle in Hx by reflexivity. congruence. }
    rewrite fmap_app, lookup_app_l in Hm1 by (rewrite length_fmap; exact Hpos).
    apply list_lookup_fmap_Some in Hm1 as ([x ok1] & Heq & Hx). cbn in Heq. subst x.
    exists ok1. eapply list_elem_of_lookup_2, Hx. }
  split; [exact Hfirst|].
  intros Hlate. destruct Hfirst as [[|] Hin]; [exfalso | exact Hin].
  apply list_elem_of_split in Hin as (p1 & p2 & ->).
  rewrite <- app_assoc in Htr. cbn in Htr.
  eapply (flush_iter_sent_once n w p1 m1 _ Hnd Htr true).
  apply elem_of_app. right. right. exact Hlate.
Qed.

End Outbound.

Section Inbound.

Variable ASSISTANT_NAME : string.
Variable toISOString : Z -> string.

Lemma set_callbacks_id w : set_callbacks (callbacks w ++ []) w = w.
Proof. destruct w. unfold set_callbacks. cbn. rewrite app_nil_r. reflexivity. Qed.

Lemma append_cons c (a b : string) : String c a +:+ b = String c (a +:+ b).
Proof. reflexivity. Qed.

Lemma append_assoc (a b c : string) : (a +:+ b) +:+ c = a +:+ (b +:+ c).
Proof.
  induction a as [|x a IH]; [reflexivity|].
  rewrite !append_cons, IH. reflexivity.
Qed.

Lemma startsWith_iff s p :
  startsWith s p = true <-> exists rest, s = p +:+ rest.
Proof.
  revert s. induction p as [|c p IH]; intros s; cbn [startsWith].
  - split; [intros _; exists s; reflexivity | reflexivity].
  - destruct s as [|d s]; [split; [discriminate | intros [rest H]; discriminate H]|].
    rewrite andb_true_iff, Ascii.eqb_eq, IH. split.
    + intros [-> [rest ->]]. exists rest. reflexivity.
    + intros [rest H]. rewrite append_cons in H. injection H as -> ->. eauto.
Qed.

Lemma hello_has_no_colon (a rest : string) : "hello" <> (a +:+ ":") +:+ rest.
Proof.
  intros Hr.
  do 5 (destruct a as [|? a];
        [discriminate Hr | rewrite !append_cons in Hr; injection Hr as _ Hr]).
  destruct a; discriminate Hr.
Qed.

(** Every way through the handler.  It touches nothing but the callback
    log.  It returns early without a callback; or throws on the timestamp
    before any callback; or makes the metadata call and then, for a
    registered room, either the full-message call or, on a body that is no
    string, throws. *)
Lemma timelineHandler_inv ev room w :
  exists res cbs,
    timelineHandler ASSISTANT_NAME toISOString ev room w =
      (res, set_callbacks (callbacks w ++ cbs) w) /\
    ((res = Ok tt /\ cbs = [] /\
      (room = None \/ getType ev <> "m.room.message" \/
       getSender ev = Some (userId w) \/ connected w = false)) \/
     (exists r, survives ev room r w /\
        valid_time (getTs ev) = false /\
        res = Throw (mkError "RangeError: Invalid time value") /\ cbs = []) \/
     (exists r, survives ev room r w /\
        valid_time (getTs ev) = true /\ registry w !! roomId r = None /\
        res = Ok tt /\ cbs = [metadata_of toISOString ev r]) \/
     (exists r b, survives ev room r w /\
        valid_time (getTs ev) = true /\ is_Some (registry w !! roomId r) /\
        or_empty (getContent_body ev) = JsString b /\
        res = Ok tt /\
        cbs = [metadata_of toISOString ev r;
               OnMessage (roomId r)
                 {| id := or_else (getId ev) "";
                    chat_jid := roomId r;
                    sender := or_else (getSender ev) "";
                    sender_name :=
                      or_else
                        (Some (or_else
                                 (member_name <$> getMember r (or_else (getSender ev) ""))
                                 (or_else (getSender ev) "")))
                        "unknown";
                    content := b;
                    timestamp := toISOString (getTs ev);
                    is_from_me := false;
                    is_bot_message := startsWith b (ASSISTANT_NAME +:+ ":") |}]) \/
     (exists r, survives ev room r w /\
        valid_time (getTs ev) = true /\ is_Some (registry w !! roomId r) /\
        or_empty (getContent_body ev) = JsOther true /\
        res = Throw (mkError "TypeError: body.startsWith is not a function") /\
        cbs = [metadata_of toISOString ev r])).
Proof.
  assert (Hquiet :
    room = None \/ getType ev <> "m.room.message" \/
    getSender ev = Some (userId w) \/ connected w = false ->
    forall P : Result unit -> list Callback -> Prop,
    exists res cbs,
      (Ok tt, w) = (res, set_callbacks (callbacks w ++ cbs) w) /\
      ((res = Ok tt /\ cbs = [] /\
        (room = None \/ getType ev <> "m.room.message" \/
         getSender ev = Some (userId w) \/ connected w = false)) \/ P res cbs)).
  { intros H P. exists (Ok tt), []. rewrite set_callbacks_id. split; [reflexivity|]. left. auto. }
  unfold timelineHandler.
  destruct room as [r|]; [|apply (Hquiet ltac:(auto) (fun res cbs => _))].
  destruct (String.eqb_spec (getType ev) "m.room.message") as [Hty|Hty]; cbn [negb];
    [|apply (Hquiet ltac:(auto) (fun res cbs => _))].
  unfold gets, mbind, M_bind.
  destruct (bool_decide_reflect (getSender ev = Some (userId w))) as [Hs|Hs];
    [apply (Hquiet ltac:(auto) (fun res cbs => _))|].
  destruct (connected w) eqn:Hc; cbn [negb];
    [|apply (Hquiet ltac:(auto) (fun res cbs => _))].
  clear Hquiet.
  assert (Hsurv : survives ev (Some r) r w) by (repeat split; assumption).
  destruct (valid_time (getTs ev)) eqn:Hts; cbn [negb].
  2:{ exists (Throw (mkError "RangeError: Invalid time value")), [].
      rewrite set_callbacks_id. split; [reflexivity|]. right. left. eauto. }
  unfold host_call, modify, registeredGroups, gets, throw. cbn.
  destruct (registry w !! roomId r) as [g|] eqn:Hreg.
  - destruct (or_empty (getContent_body ev)) as [|b|t] eqn:Hbody.
    + destruct (getContent_body ev) as [| |[|]]; discriminate Hbody.
    + eexists (Ok tt), [_; _]. unfold set_callbacks. cbn. rewrite <- app_assoc.
      split; [reflexivity|]. do 3 right. left. exists r, b. eauto 10.
    + assert (t = true) as ->
        by (destruct (getContent_body ev) as [| |[|]]; cbn in Hbody; congruence).
      eexists _, [_]. split; [reflexivity|]. do 4 right. exists r. eauto 10.
  - eexists (Ok tt), [_]. split; [reflexivity|]. do 2 right. left. exists r. eauto 10.
Qed.

(** The callbacks of one run: none, the metadata call, or the metadata call
    and a message that is not marked as the adapter's own. *)
Lemma timelineHandler_callbacks ev room w :
  exists res cbs,
    timelineHandler ASSISTANT_NAME toISOString ev room w =
      (res, set_callbacks (callbacks w ++ cbs) w) /\
    (cbs = [] \/
     (exists meta, cbs = [OnChatMetadata meta.1.1 meta.1.2 meta.2]) \/
     (exists meta chatJid msg,
        cbs = [OnChatMetadata meta.1.1 meta.1.2 meta.2; OnMessage chatJid msg] /\
        is_from_me msg = false)).
Proof.
  destruct (timelineHandler_inv ev room w)
    as (res & cbs & Hrun & [(_ & -> & _) | [(r & _ & _ & _ & ->) |
         [(r & _ & _ & _ & _ & ->) | [(r & b & _ & _ & _ & _ & _ & ->) |
          (r & _ & _ & _ & _ & _ & ->)]]]]);
    exists res; eexists; (split; [exact Hrun|]); auto.
  - right. left. eexists (_, _, _). reflexivity.
  - right. right. eexists (_, _, _), _, _. split; reflexivity.
  - right. left. eexists (_, _, _). reflexivity.
Qed.

(** C5.  An event sent by the adapter's own user id, or one that arrives
    while the channel is not connected, invokes neither the metadata
    callback nor the full-message callback: the handler returns and leaves
    the world, callback log included, as it was. *)
Theorem timeline_ignores_own_and_early_events ev room w :
  getSender ev = Some (userId w) \/ connected w = false ->
  timelineHandler ASSISTANT_NAME toISOString ev room w = (Ok tt, w) /\
  callbacks (snd (timelineHandler ASSISTANT_NAME toISOString ev room w)) =
    callbacks w.
Proof.
  intros H.
  assert (Hno : forall r, ~ survives ev room r w).
  { intros r (_ & _ & Hs & Hc). destruct H; congruence. }
  destruct (timelineHandler_inv ev room w)
    as (res & cbs & Hrun & [(-> & -> & _) | [(r & Hr & _) |
         [(r & Hr & _) | [(r & b & Hr & _) | (r & Hr & _)]]]]);
    try (exfalso; exact (Hno r Hr)).
  rewrite set_callbacks_id in Hrun. rewrite Hrun. auto.
Qed.


(** C7.  A message handed to the full-message callback carries the event's
    body as its content, and its [is_bot_message] flag is true exactly when
    that body starts with the assistant name followed by a colon.  A body
    equal to the assistant name followed by ": hello" is flagged; the body
    "hello" is not, whatever the assistant name. *)
Theorem forwarded_message_bot_flag ev room w cbs chatJid msg :
  callbacks (snd (timelineHandler ASSISTANT_NAME toISOString ev room w)) =
    callbacks w ++ cbs ->
  OnMessage chatJid msg ∈ cbs ->
  or_empty (getContent_body ev) = JsString (content msg) /\
  (is_bot_message msg = true <->
   exists rest, content msg = ASSISTANT_NAME +:+ ":" +:+ rest) /\
  (content msg = ASSISTANT_NAME +:+ ": hello" -> is_bot_message msg = true) /\
  (content msg = "hello" -> is_bot_message msg = false).
Proof.
  intros Hcbs Hin.
  destruct (timelineHandler_inv ev room w) as (res & cbs' & Hrun & Hcases).
  rewrite Hrun in Hcbs. cbn in Hcbs. apply app_inv_head in Hcbs. subst cbs'.
  destruct Hcases as [(_ & -> & _) | [(r & _ & _ & _ & ->) |
       [(r & _ & _ & _ & _ & ->) | [(r & b & _ & _ & _ & Hbody & _ & ->) |
        (r & _ & _ & _ & _ & _ & ->)]]]];
    try (inversion Hin; fail);
    try (apply list_elem_of_singleton in Hin; discriminate Hin).
  apply elem_of_cons in Hin as [Hin | Hin]; [discriminate Hin|].
  apply list_elem_of_singleton in Hin. injection Hin as -> ->. cbn.
  split; [exact Hbody|].
  assert (Hiff : startsWith b (ASSISTANT_NAME +:+ ":") = true <->
                 exists rest, b = ASSISTANT_NAME +:+ ":" +:+ rest).
  { rewrite startsWith_iff. split; intros [rest Hr]; exists rest;
      rewrite Hr, append_assoc; reflexivity. }
  split; [exact Hiff|]. split.
  - intros Hhello. apply Hiff. exists " hello". exact Hhello.
  - intros Hhello. rewrite Hhello.
    destruct (startsWith "hello" (ASSISTANT_NAME +:+ ":")) eqn:Hsw; [|reflexivity].
    apply startsWith_iff in Hsw as [rest Hr]. exfalso.
    eapply hello_has_no_colon, Hr.
Qed.

(** C10.  Whatever events arrive, every message handed to the full-message
    callback has [is_from_me] equal to [false]. *)
Theorem forwarded_messages_never_from_me evs w :
  exists new,
    callbacks (snd (timelineAll ASSISTANT_NAME toISOString evs w)) =
      callbacks w ++ new /\
    forall chatJid msg, OnMessage chatJid msg ∈ new -> is_from_me msg = false.
Proof.
  revert w. induction evs as [|[ev room] evs IH]; intros w.
  - exists []. cbn. rewrite app_nil_r. split; [reflexivity|]. intros ? ? H. inversion H.
  - cbn [timelineAll].
    destruct (timelineHandler_callbacks ev room w) as (res & cbs & -> & Hcases).
    cbn [snd].
    destruct (IH (set_callbacks (callbacks w ++ cbs) w)) as (new & -> & Hnew).
    exists (cbs ++ new). cbn. rewrite app_assoc. split; [reflexivity|].
    intros chatJid msg [Hin | Hin]%elem_of_app; [|eauto].
    destruct Hcases as [-> | [(meta & ->) | (meta & j & m & -> & Hme)]].
    + inversion Hin.
    + apply list_elem_of_singleton in Hin. discriminate Hin.
    + apply elem_of_cons in Hin as [Hin | Hin]; [discriminate Hin|].
      apply list_elem_of_singleton in Hin. congruence.
Qed.

End Inbound.

Section Lifecycle.

Variable T : Transport.

(** C8.  With the homeserver URL configured but neither an access token nor
    a username together with a password, [connect] throws the configuration
    error before anything is awaited: the only call it has made is the local
    [sdk.createClient]; there is no login request and the client is not
    started, and the channel stays as it was. *)
Theorem connect_without_credentials_fails_fast env fuel w :
  truthy (MATRIX_HOMESERVER env) = true ->
  truthy (MATRIX_ACCESS_TOKEN env) = false ->
  truthy (MATRIX_USERNAME env) && truthy (MATRIX_PASSWORD env) = false ->
  exists w' new,
    connect T env fuel w =
      (Throw (mkError
         "Either MATRIX_ACCESS_TOKEN or MATRIX_USERNAME+MATRIX_PASSWORD required"), w') /\
    wire w' = wire w ++ new /\
    (forall c, c ∈ new -> is_network_call c = false) /\
    connected w' = connected w /\ sends w' = sends w /\
    outgoingQueue w' = outgoingQueue w.
Proof.
  intros Hurl Htok Hpw.
  unfold connect, connect_setup. rewrite Hurl, Htok, Hpw. run.
  eexists _, [_]. split; [reflexivity|]. cbn. split; [reflexivity|].
  split; [|auto].
  intros c Hc. apply list_elem_of_singleton in Hc. subst c. reflexivity.
Qed.

End Lifecycle.

(** * Further properties of the outbound path *)

Lemma fulfilled_app l1 l2 : fulfilled (l1 ++ l2) = fulfilled l1 ++ fulfilled l2.
Proof.
  induction l1 as [|[m [|]] l1 IH]; cbn; rewrite ?IH; reflexivity.
Qed.

Section Delivery.

Variable T : Transport.

(** A returned flush ended in the world its iterations lead to. *)
Lemma flush_result_iter fuel : forall w r w',
  flushOutgoingQueue T fuel w = Some (r, w') -> w' = flush_iter T fuel w.
Proof.
  induction fuel as [|fuel IH]; intros w r w' H;
    destruct (flush_guard w) eqn:Hg.
  - rewrite flush_out_of_fuel in H by exact Hg. discriminate H.
  - rewrite flush_done in H by exact Hg. injection H as _ <-. reflexivity.
  - rewrite flush_next in H by exact Hg. cbn [flush_iter]. rewrite Hg. eapply IH, H.
  - rewrite flush_done in H by exact Hg. injection H as _ <-.
    cbn [flush_iter]. rewrite Hg. reflexivity.
Qed.

(** X1.  After [sendMessage] the message is in exactly one place: either its
    request was fulfilled and the queue is as it was, or nothing new was
    delivered and the message is the last entry of the queue.  The call makes
    at most one request. *)
Theorem sendMessage_sends_or_queues roomId text w :
  let item := {| jid := roomId; text := text |} in
  let w' := snd (sendMessage T roomId text w) in
  ((transmissions (wire w') = transmissions (wire w) ++ [(item, true)] /\
    outgoingQueue w' = outgoingQueue w) \/
   (fulfilled (transmissions (wire w')) = fulfilled (transmissions (wire w)) /\
    outgoingQueue w' = outgoingQueue w ++ [item])) /\
  length (transmissions (wire w')) <= S (length (transmissions (wire w))).
Proof.
  cbv zeta. destruct (connected w) eqn:Hc.
  - destruct (sendMessage_online T roomId text w Hc) as (_ & _ & _ & Hq & Htr & _).
    cbv zeta in Hq, Htr. rewrite Hq, Htr, fulfilled_app, length_app.
    split; [|cbn; lia].
    destruct (settled (sendReply T (sends w))); cbn.
    + left. rewrite app_nil_r. auto.
    + right. rewrite app_nil_r. auto.
  - rewrite sendMessage_offline by exact Hc. cbn. split; [right; auto | lia].
Qed.

(** X2.  A connected [sendMessage] does not look at the queue: when its
    request is fulfilled the message goes out at once, ahead of whatever is
    still queued, and the queue keeps its entries. *)
Theorem connected_send_overtakes_queue roomId text w :
  connected w = true ->
  settled (sendReply T (sends w)) = Resolved ->
  let w' := snd (sendMessage T roomId text w) in
  transmissions (wire w') =
    transmissions (wire w) ++ [({| jid := roomId; text := text |}, true)] /\
  outgoingQueue w' = outgoingQueue w.
Proof.
  intros Hc Hok.
  destruct (sendMessage_online T roomId text w Hc) as (_ & _ & _ & Hq & Htr & _).
  cbv zeta in *. rewrite Hok in Hq, Htr. rewrite app_nil_r in Hq. auto.
Qed.

(** X3.  A flush neither loses nor duplicates a message: at every point of
    the loop, and in particular when it returns, the entries still queued
    together with the entries delivered so far are a rearrangement of what
    was queued and delivered when it started. *)
Theorem flush_conserves_messages n w :
  outgoingQueue (flush_iter T n w) ++
    fulfilled (transmissions (wire (flush_iter T n w)))
  ≡ₚ outgoingQueue w ++ fulfilled (transmissions (wire w)).
Proof.
  revert w. induction n as [|n IH]; intros w; [reflexivity|].
  cbn [flush_iter]. destruct (flush_guard w) eqn:Hg; [|reflexivity].
  apply flush_guard_true in Hg as [Hc (item & rest & Hq)].
  destruct (flush_body_online T w item rest Hc Hq) as (_ & _ & Hq' & Htr' & _).
  cbv zeta in Hq', Htr'. rewrite IH, Hq', Htr', fulfilled_app, Hq.
  destruct (settled (sendReply T (sends w))); cbn.
  - rewrite app_nil_r, app_assoc, <- Permutation_cons_append. reflexivity.
  - rewrite app_nil_r, <- app_assoc. cbn.
    rewrite <- Permutation_middle. reflexivity.
Qed.

(** X4.  [flushOutgoingQueue] never throws, and it returns only with the
    queue empty or the channel disconnected; flushing again from there
    changes nothing. *)
Theorem flush_returns_drained_or_offline fuel w r w' :
  flushOutgoingQueue T fuel w = Some (r, w') ->
  r = Ok tt /\
  (outgoingQueue w' = [] \/ connected w' = false) /\
  forall fuel', flushOutgoingQueue T fuel' w' = Some (Ok tt, w').
Proof.
  intros H. destruct (flush_exit T fuel w r w' H) as [-> Hg].
  split; [reflexivity|]. split.
  - unfold flush_guard in Hg. apply andb_false_iff in Hg as [Hg | Hg]; [left | right; exact Hg].
    apply Nat.ltb_ge in Hg. destruct (outgoingQueue w'); [reflexivity | cbn in Hg; lia].
  - intros fuel'. apply flush_done, Hg.
Qed.

End Delivery.

(** While every request is rejected and nobody disconnects, a flush of a
    non-empty queue on a connected channel does not return. *)
Lemma flush_never_returns T fuel : forall w,
  (forall n, sends w <= n ->
     exists err, sendReply T n = {| settled := Rejected err; hangup := false |}) ->
  connected w = true ->
  outgoingQueue w <> [] ->
  flushOutgoingQueue T fuel w = None.
Proof.
  induction fuel as [|fuel IH]; intros w Hrej Hc Hq;
    destruct (outgoingQueue w) as [|item rest] eqn:Hqw; try congruence;
    assert (Hg : flush_guard w = true) by (apply flush_guard_true; eauto).
  - apply flush_out_of_fuel, Hg.
  - rewrite flush_next by exact Hg.
    destruct (flush_body_online T w item rest Hc Hqw) as (Hc' & Hs' & Hq' & _).
    cbv zeta in Hc', Hs', Hq'.
    destruct (Hrej (sends w) (le_n _)) as [err Herr].
    rewrite Herr in Hc', Hq'. cbn in Hc', Hq'.
    apply IH; [|exact Hc'|].
    + intros n Hn. apply Hrej. lia.
    + rewrite Hq'. intros H. apply app_eq_nil in H as [_ H]. discriminate H.
Qed.

Section Progress.

Variable T : Transport.

(** Once every request is fulfilled a flush needs one iteration per queued
    entry at most. *)
Lemma flush_returns_when_fulfilled fuel : forall w,
  (forall n, sends w <= n -> settled (sendReply T n) = Resolved) ->
  length (outgoingQueue w) <= fuel ->
  exists w', flushOutgoingQueue T fuel w = Some (Ok tt, w').
Proof.
  induction fuel as [|fuel IH]; intros w Hok Hlen;
    destruct (flush_guard w) eqn:Hg;
    try (exists w; apply flush_done, Hg).
  - apply flush_guard_true in Hg as [_ (item & rest & Hq)].
    rewrite Hq in Hlen. cbn in Hlen. lia.
  - rewrite flush_next by exact Hg.
    apply flush_guard_true in Hg as [Hc (item & rest & Hq)].
    destruct (flush_body_online T w item rest Hc Hq) as (_ & Hs' & Hq' & _).
    cbv zeta in Hs', Hq'. rewrite (Hok (sends w) (le_n _)), app_nil_r in Hq'.
    apply IH.
    + intros n Hn. apply Hok. lia.
    + rewrite Hq'. rewrite Hq in Hlen. cbn in Hlen. lia.
Qed.

(** The queue does not grow during a flush, and an iteration that runs makes
    exactly one request. *)
Lemma flush_iter_bounds k : forall w,
  length (outgoingQueue (flush_iter T k w)) <= length (outgoingQueue w) /\
  (flush_guard (flush_iter T k w) = true -> sends (flush_iter T k w) = sends w + k).
Proof.
  induction k as [|k IH]; intros w; [cbn; split; [lia | intros _; lia]|].
  cbn [flush_iter]. destruct (flush_guard w) eqn:Hg; [|split; [lia | congruence]].
  apply flush_guard_true in Hg as [Hc (item & rest & Hq)].
  destruct (flush_body_online T w item rest Hc Hq) as (_ & Hs' & Hq' & _).
  cbv zeta in Hs', Hq'.
  destruct (IH (snd (flush_body T w))) as [Hlen Hsends]. split.
  - rewrite Hq' in Hlen. rewrite Hq. cbn.
    destruct (settled (sendReply T (sends w))); rewrite length_app in Hlen; cbn in Hlen; lia.
  - intros Hg'. rewrite (Hsends Hg'), Hs'. lia.
Qed.

(** A flush only appends to the log of client calls, and what it appends
    are message requests and, through a [disconnect], [stopClient]. *)
Lemma flush_body_wire w :
  exists post,
    wire (snd (flush_body T w)) = wire w ++ post /\
    forall c, c ∈ post -> (exists r b ok, c = SendText r b ok) \/ c = StopClient.
Proof.
  unfold flush_body. run.
  destruct (outgoingQueue w) as [|item rest]; cbn;
    [exists []; rewrite app_nil_r; split; [reflexivity | intros c H; inversion H]|].
  destruct (connected w); cbn;
    [|exists []; rewrite app_nil_r; split; [reflexivity | intros c H; inversion H]].
  destruct (sendReply T (sends w)) as [[|err] [|]]; cbn;
    try match goal with
        | |- context [existsb ?f ?l] => destruct (existsb f l)
        end; cbn;
    rewrite <- ?app_assoc; eexists; (split; [reflexivity|]);
    intros c H; repeat (apply elem_of_cons in H as [-> | H]; [eauto|]); inversion H.
Qed.

Lemma flush_iter_wire n : forall w,
  exists post,
    wire (flush_iter T n w) = wire w ++ post /\
    forall c, c ∈ post -> (exists r b ok, c = SendText r b ok) \/ c = StopClient.
Proof.
  induction n as [|n IH]; intros w;
    [exists []; rewrite app_nil_r; split; [reflexivity | intros c H; inversion H]|].
  cbn [flush_iter]. destruct (flush_guard w);
    [|exists []; rewrite app_nil_r; split; [reflexivity | intros c H; inversion H]].
  destruct (flush_body_wire w) as (p1 & H1 & Hp1).
  destruct (IH (snd (flush_body T w))) as (p2 & H2 & Hp2).
  exists (p1 ++ p2). rewrite H2, H1, app_assoc. split; [reflexivity|].
  intros c [H | H]%elem_of_app; auto.
Qed.

Lemma flush_iter_userId n : forall w, userId (flush_iter T n w) = userId w.
Proof.
  induction n as [|n IH]; intros w; [reflexivity|].
  cbn [flush_iter]. destruct (flush_guard w) eqn:Hg; [|reflexivity].
  apply flush_guard_true in Hg as [Hc (item & rest & Hq)].
  rewrite IH. apply (flush_body_online T w item rest Hc Hq).
Qed.

(** The flush [connect] starts never reaches its [catch]. *)
Lemma flush_progress_iter n : forall w, flush_progress T n w = flush_iter T n w.
Proof.
  induction n as [|n IH]; intros w; [reflexivity|].
  cbn [flush_progress flush_iter]. destruct (flush_guard w); [|reflexivity].
  pose proof (flush_body_returns T w) as Hr.
  destruct (flush_body T w) as [[[]|e] w']; [apply IH | discriminate Hr].
Qed.

Lemma has_client_app w w' post :
  wire w' = wire w ++ post -> has_client w = true -> has_client w' = true.
Proof.
  unfold has_client. intros ->. rewrite existsb_app. intros ->. reflexivity.
Qed.

(** X5.  A flush returns as soon as the transport stops rejecting: if every
    request after the first [k] of this flush is fulfilled, the loop returns
    within [k] iterations plus one per entry queued at the start, whoever
    disconnects meanwhile. *)
Theorem flush_returns_after_last_rejection k fuel w :
  (forall n, sends w + k <= n -> settled (sendReply T n) = Resolved) ->
  k + length (outgoingQueue w) <= fuel ->
  exists w', flushOutgoingQueue T fuel w = Some (Ok tt, w').
Proof.
  intros Hok Hfuel.
  replace fuel with (k + (fuel - k)) by lia. rewrite flush_split.
  destruct (flush_iter_bounds k w) as [Hlen Hsends].
  destruct (flush_guard (flush_iter T k w)) eqn:Hg.
  - apply flush_returns_when_fulfilled; [|lia].
    intros n Hn. apply Hok. rewrite <- (Hsends eq_refl). exact Hn.
  - eexists. apply flush_done, Hg.
Qed.

(** X6.  There is no retry limit and no pause: while every request is
    rejected and nobody disconnects, a flush of a non-empty queue does not
    return; each iteration makes one more request, nothing is delivered and
    the queue keeps its length. *)
Theorem flush_retries_forever_while_rejected w :
  (forall n, sends w <= n ->
     exists err, sendReply T n = {| settled := Rejected err; hangup := false |}) ->
  connected w = true ->
  outgoingQueue w <> [] ->
  (forall fuel, flushOutgoingQueue T fuel w = None) /\
  forall n,
    sends (flush_iter T n w) = sends w + n /\
    fulfilled (transmissions (wire (flush_iter T n w))) =
      fulfilled (transmissions (wire w)) /\
    length (outgoingQueue (flush_iter T n w)) = length (outgoingQueue w).
Proof.
  intros Hrej Hc Hq. split.
  - intros fuel. apply flush_never_returns; assumption.
  - intros n. revert w Hrej Hc Hq. induction n as [|n IH]; intros w Hrej Hc Hq.
    + cbn. auto with lia.
    + destruct (outgoingQueue w) as [|item rest] eqn:Hqw; [congruence|].
      cbn [flush_iter].
      rewrite (proj2 (flush_guard_true w)) by eauto.
      destruct (flush_body_online T w item rest Hc Hqw) as (Hc' & Hs' & Hq' & Htr' & _).
      cbv zeta in Hc', Hs', Hq', Htr'.
      destruct (Hrej (sends w) (le_n _)) as [err Herr].
      rewrite Herr in Hc', Hq', Htr'. cbn in Hc', Hq', Htr'.
      destruct (IH (snd (flush_body T w))) as (Hs & Hf & Hl).
      * intros m Hm. apply Hrej. lia.
      * exact Hc'.
      * rewrite Hq'. intros H. apply app_eq_nil in H as [_ H]. discriminate H.
      * rewrite Hs, Hf, Hl, Hs', Htr', Hq', fulfilled_app, length_app. cbn.
        rewrite app_nil_r. repeat split; lia.
Qed.

End Progress.

Section Connecting.

Variable T : Transport.

(** What [connect] does before it starts the client: it leaves the flag, the
    queue and the callbacks alone, transmits nothing, and fails only with
    one of the two configuration errors or with the error of the login. *)
Lemma connect_setup_inv env w :
  let r := fst (connect_setup T env w) in
  let w' := snd (connect_setup T env w) in
  connected w' = connected w /\ outgoingQueue w' = outgoingQueue w /\
  sends w' = sends w /\ callbacks w' = callbacks w /\
  transmissions (wire w') = transmissions (wire w) /\
  (forall e, r = Throw e ->
     e = mkError "MATRIX_HOMESERVER environment variable is required" \/
     e = mkError "Either MATRIX_ACCESS_TOKEN or MATRIX_USERNAME+MATRIX_PASSWORD required" \/
     loginReply T = Throw e) /\
  (r = Ok tt ->
     exists new,
       wire w' = wire w ++ new ++
         [Subscribe "RoomMember.membership"; Subscribe "Room.timeline"] /\
       StartClient ∉ new).
Proof.
  cbv zeta. unfold connect_setup.
  destruct (truthy (MATRIX_HOMESERVER env)); cbn [negb];
    [|run; repeat split; auto; try discriminate; intros e [= <-]; auto].
  destruct (truthy (MATRIX_ACCESS_TOKEN env)).
  { run. rewrite !transmissions_app, !app_nil_r. repeat split; try discriminate.
    intros _. eexists [_; _]. rewrite <- !app_assoc. split; [reflexivity|].
    intros H. repeat (apply elem_of_cons in H as [H | H]; [discriminate H|]). inversion H. }
  destruct (truthy (MATRIX_USERNAME env) && truthy (MATRIX_PASSWORD env)).
  - unfold client_login. run. destruct (loginReply T) as [resp|e] eqn:Hlogin; cbn;
      rewrite !transmissions_app, ?app_nil_r; cbn; rewrite ?app_nil_r.
    + repeat split; try discriminate.
      intros _. eexists [_; _; _]. rewrite <- !app_assoc. split; [reflexivity|].
      intros H. repeat (apply elem_of_cons in H as [H | H]; [discriminate H|]). inversion H.
    + repeat split; try discriminate. intros e' [= <-]. auto.
  - run. rewrite !transmissions_app, ?app_nil_r. repeat split; try discriminate.
    intros e [= <-]. auto.
Qed.

(** A successful setup has created the client. *)
Lemma connect_setup_creates_client env w :
  fst (connect_setup T env w) = Ok tt ->
  has_client (snd (connect_setup T env w)) = true.
Proof.
  unfold connect_setup, has_client.
  destruct (truthy (MATRIX_HOMESERVER env)); cbn [negb]; [|discriminate].
  destruct (truthy (MATRIX_ACCESS_TOKEN env)).
  { intros _. run. rewrite !existsb_app. cbn. rewrite !orb_true_r. reflexivity. }
  destruct (truthy (MATRIX_USERNAME env) && truthy (MATRIX_PASSWORD env)).
  - unfold client_login. run. destruct (loginReply T) as [resp|e]; cbn; [|discriminate].
    intros _. rewrite !existsb_app. cbn. rewrite !orb_true_r. reflexivity.
  - run. discriminate.
Qed.

(** The world in which the client has been started, and the one in which
    the sync handler has marked the channel connected. *)
Lemma started_world w1 :
  let w2 := snd ((client_call (Subscribe "sync") ;; client_call StartClient) w1) in
  wire w2 = wire w1 ++ [Subscribe "sync"; StartClient] /\
  connected w2 = connected w1 /\ outgoingQueue w2 = outgoingQueue w1 /\
  userId w2 = userId w1.
Proof. run. rewrite <- app_assoc. auto. Qed.

(** Every way through [connect]. *)
Lemma connect_inv env seen w :
  let w1 := snd (connect_setup T env w) in
  let w2 := snd ((client_call (Subscribe "sync") ;; client_call StartClient) w1) in
  (exists e, fst (connect_setup T env w) = Throw e /\
     connect T env seen w = (Throw e, w1)) \/
  (fst (connect_setup T env w) = Ok tt /\
   ((syncSignal T = SyncTimeout /\
     connect T env seen w = (Throw (mkError "Matrix sync timed out after 30s"), w2)) \/
    (exists state, syncSignal T = SyncState state /\ state <> "PREPARED" /\
       connect T env seen w =
         (Throw (mkError ("Matrix sync failed with state: " +:+ state)), w2)) \/
    (syncSignal T = SyncState "PREPARED" /\
     connect T env seen w =
       (Ok tt,
        flush_iter T seen
          (set_logs (logs w2 ++ [(info, "Matrix sync complete, connected")])
             (set_connected true w2)))))).
Proof.
  cbv zeta. unfold connect.
  destruct (connect_setup T env w) as [[[]|e0] w1]; cbn [fst snd]; [right | left; eauto].
  split; [reflexivity|].
  destruct (syncSignal T) as [state|]; [|left; auto].
  right. unfold syncHandler.
  destruct (String.eqb_spec state "PREPARED") as [->|Hne].
  - right. split; [reflexivity|]. rewrite flush_progress_iter. reflexivity.
  - left. exists state. auto.
Qed.

(** X7.  Without [MATRIX_HOMESERVER] (unset or empty) [connect] throws at
    once, whatever credentials are set, and nothing at all has happened:
    not even a client object was created. *)
Theorem connect_requires_homeserver env fuel w :
  truthy (MATRIX_HOMESERVER env) = false ->
  connect T env fuel w =
    (Throw (mkError "MATRIX_HOMESERVER environment variable is required"), w).
Proof.
  intros H. unfold connect, connect_setup. rewrite H. reflexivity.
Qed.

(** X8.  When the password login is refused, [connect] fails with the error
    of the login itself; the only request made is that login, the client is
    not started, and the user id, the flag and the queue are as before. *)
Theorem connect_surfaces_login_error env fuel w e :
  truthy (MATRIX_HOMESERVER env) = true ->
  truthy (MATRIX_ACCESS_TOKEN env) = false ->
  truthy (MATRIX_USERNAME env) && truthy (MATRIX_PASSWORD env) = true ->
  loginReply T = Throw e ->
  exists w',
    connect T env fuel w = (Throw e, w') /\
    wire w' = wire w ++
      [CreateClient (or_else (MATRIX_HOMESERVER env) "") None None;
       Login (or_else (MATRIX_USERNAME env) "") (or_else (MATRIX_PASSWORD env) "")] /\
    userId w' = userId w /\ connected w' = connected w /\
    outgoingQueue w' = outgoingQueue w.
Proof.
  intros Hurl Htok Hpw Hlogin.
  unfold connect, connect_setup, client_login. rewrite Hurl, Htok, Hpw. run.
  rewrite Hlogin. cbn. eexists. split; [reflexivity|]. cbn.
  rewrite <- app_assoc. auto.
Qed.

(** X9.  A failed [connect] never leaves the channel connected and never
    transmits: whenever it throws, the flag and the queue are as before, no
    message has gone out, and the error is one of the two configuration
    errors, the error of the login, the sync timeout, or the failed sync
    state. *)
Theorem failed_connect_stays_offline env fuel w e w' :
  connect T env fuel w = (Throw e, w') ->
  connected w' = connected w /\
  outgoingQueue w' = outgoingQueue w /\
  transmissions (wire w') = transmissions (wire w) /\
  (e = mkError "MATRIX_HOMESERVER environment variable is required" \/
   e = mkError "Either MATRIX_ACCESS_TOKEN or MATRIX_USERNAME+MATRIX_PASSWORD required" \/
   loginReply T = Throw e \/
   (syncSignal T = SyncTimeout /\ e = mkError "Matrix sync timed out after 30s") \/
   (exists state, syncSignal T = SyncState state /\ state <> "PREPARED" /\
      e = mkError ("Matrix sync failed with state: " +:+ state))).
Proof.
  intros H.
  destruct (connect_setup_inv env w) as (Hc & Hq & _ & _ & Htr & Herr & _).
  destruct (started_world (snd (connect_setup T env w))) as (Hw2 & Hc2 & Hq2 & _).
  cbv zeta in *.
  destruct (connect_inv env fuel w)
    as [(e0 & He0 & Hrun) | (_ & [(Hsync & Hrun) | [(state & Hsync & Hne & Hrun) |
         (_ & Hrun)]])];
    cbv zeta in Hrun; rewrite Hrun in H; [| | |discriminate H];
    injection H as <- <-.
  - repeat split; auto. destruct (Herr e0 He0) as [-> | [-> | Hl]]; auto.
  - cbn [connected outgoingQueue wire set_wire].
    rewrite !transmissions_app. cbn [transmissions]. rewrite !app_nil_r.
    repeat split; auto. do 3 right. left. auto.
  - cbn [connected outgoingQueue wire set_wire].
    rewrite !transmissions_app. cbn [transmissions]. rewrite !app_nil_r.
    repeat split; auto. do 4 right. eauto.
Qed.

(** X10.  [connect] returns normally only after the sync reported
    [PREPARED], and by then it has subscribed to membership, timeline and
    sync events before starting the client, with no message sent before the
    start.  This holds however far the flush it started has got. *)
Theorem connect_returns_only_when_prepared env fuel w w' :
  connect T env fuel w = (Ok tt, w') ->
  syncSignal T = SyncState "PREPARED" /\
  exists pre post,
    wire w' = wire w ++ pre ++ StartClient :: post /\
    Subscribe "RoomMember.membership" ∈ pre /\
    Subscribe "Room.timeline" ∈ pre /\
    Subscribe "sync" ∈ pre /\
    transmissions pre = [].
Proof.
  intros H.
  destruct (connect_setup_inv env w) as (_ & _ & _ & _ & Htr & _ & Hok).
  destruct (started_world (snd (connect_setup T env w))) as (Hw2 & _).
  cbv zeta in *.
  destruct (connect_inv env fuel w)
    as [(e0 & _ & Hrun) | (Hset & [(_ & Hrun) | [(state & _ & _ & Hrun) |
         (Hsync & Hrun)]])];
    cbv zeta in Hrun; rewrite Hrun in H; try discriminate H.
  injection H as <-. split; [exact Hsync|].
  destruct (Hok Hset) as (new & Hwire & _).
  match goal with
  | |- context [flush_iter T fuel ?w0] =>
      destruct (flush_iter_wire T fuel w0) as (post & Hpost & _)
  end.
  cbn [wire set_logs set_connected set_wire] in Hpost.
  exists (new ++ [Subscribe "RoomMember.membership"; Subscribe "Room.timeline";
                  Subscribe "sync"]), post.
  rewrite Hpost, Hwire, <- !app_assoc. cbn. split; [reflexivity|].
  rewrite !elem_of_app, !elem_of_cons. repeat split; auto 10.
  rewrite transmissions_app. cbn. rewrite app_nil_r.
  rewrite Hwire, !transmissions_app in Htr. cbn in Htr. rewrite app_nil_r in Htr.
  rewrite <- (app_nil_r (transmissions (wire w))) in Htr at 2.
  apply app_inv_head in Htr. exact Htr.
Qed.

(** Once the setup has succeeded, whatever [connect] does next keeps the
    user id and adds to the call log the sync subscription, the start of
    the client and then only what a flush adds. *)
Lemma connect_after_setup env seen w :
  fst (connect_setup T env w) = Ok tt ->
  userId (snd (connect T env seen w)) = userId (snd (connect_setup T env w)) /\
  exists post,
    wire (snd (connect T env seen w)) =
      wire (snd (connect_setup T env w)) ++
        Subscribe "sync" :: StartClient :: post /\
    forall c, c ∈ post -> (exists r b ok, c = SendText r b ok) \/ c = StopClient.
Proof.
  intros Hset.
  destruct (started_world (snd (connect_setup T env w))) as (Hw2 & _ & _ & Hu2).
  cbv zeta in *.
  assert (Hnil : forall c : ClientCall, c ∈ [] ->
            (exists r b ok, c = SendText r b ok) \/ c = StopClient)
    by (intros c Hc; inversion Hc).
  destruct (connect_inv env seen w)
    as [(e0 & He0 & _) | (_ & [(_ & Hrun) | [(state & _ & _ & Hrun) | (_ & Hrun)]])];
    [congruence | | |]; cbv zeta in Hrun; rewrite Hrun; cbn [snd].
  - rewrite Hw2, Hu2. eauto.
  - rewrite Hw2, Hu2. eauto.
  - match goal with
    | |- context [flush_iter T seen ?w0] =>
        destruct (flush_iter_wire T seen w0) as (post & Hpost & Hkind);
        rewrite (flush_iter_userId T seen w0)
    end.
    cbn [wire userId set_logs set_connected] in Hpost |- *.
    rewrite Hpost, Hw2, Hu2, <- !app_assoc. cbn. eauto.
Qed.

(** The setup only appends to the call log. *)
Lemma connect_setup_wire env w :
  exists new, wire (snd (connect_setup T env w)) = wire w ++ new.
Proof.
  unfold connect_setup.
  destruct (truthy (MATRIX_HOMESERVER env)); cbn [negb];
    [|exists []; rewrite app_nil_r; reflexivity].
  destruct (truthy (MATRIX_ACCESS_TOKEN env));
    [run; rewrite <- !app_assoc; eexists; reflexivity|].
  destruct (truthy (MATRIX_USERNAME env) && truthy (MATRIX_PASSWORD env)).
  - unfold client_login. run. destruct (loginReply T); cbn;
      rewrite <- ?app_assoc; eexists; reflexivity.
  - run. eexists. reflexivity.
Qed.

(** A channel is connected only once it has a client: [connect] keeps that
    true. *)
Lemma connected_has_client env seen w :
  (connected w = true -> has_client w = true) ->
  connected (snd (connect T env seen w)) = true ->
  has_client (snd (connect T env seen w)) = true.
Proof.
  intros Hinv.
  destruct (fst (connect_setup T env w)) as [[]|e0] eqn:Hset.
  - intros _. destruct (connect_after_setup env seen w Hset) as (_ & post & Hwire & _).
    eapply has_client_app; [exact Hwire|].
    apply connect_setup_creates_client, Hset.
  - destruct (connect_inv env seen w) as [(e & _ & Hrun) | (Hok & _)]; [|congruence].
    cbv zeta in Hrun. rewrite Hrun. cbn [snd].
    destruct (connect_setup_inv env w) as (Hc & _).
    cbv zeta in Hc. rewrite Hc. intros Hcon.
    destruct (connect_setup_wire env w) as [new Hnew].
    eapply has_client_app; [exact Hnew | exact (Hinv Hcon)].
Qed.

(** The setup with an access token. *)
Lemma connect_setup_token env w :
  truthy (MATRIX_HOMESERVER env) = true ->
  truthy (MATRIX_ACCESS_TOKEN env) = true ->
  connect_setup T env w =
    (Ok tt,
     set_logs (logs w ++ [(info, "Using existing access token")])
       (set_userId (or_else (MATRIX_USER_ID env) "")
          (set_wire (wire w ++
             [CreateClient (or_else (MATRIX_HOMESERVER env) "") None None;
              CreateClient (or_else (MATRIX_HOMESERVER env) "")
                (MATRIX_ACCESS_TOKEN env) (MATRIX_USER_ID env);
              Subscribe "RoomMember.membership"; Subscribe "Room.timeline"]) w))).
Proof.
  intros Hurl Htok. unfold connect_setup. rewrite Hurl, Htok. run.
  rewrite <- !app_assoc. reflexivity.
Qed.

(** X11.  An access token wins over a username and password: with a token
    set, [connect] makes no login request at any point, whatever else is
    configured, however the sync ends and however far the flush has got,
    and the user id is [MATRIX_USER_ID], or the empty string when that is
    unset. *)
Theorem token_skips_login env fuel w :
  truthy (MATRIX_HOMESERVER env) = true ->
  truthy (MATRIX_ACCESS_TOKEN env) = true ->
  let w' := snd (connect T env fuel w) in
  userId w' = or_else (MATRIX_USER_ID env) "" /\
  exists new, wire w' = wire w ++ new /\ forall u p, Login u p ∉ new.
Proof.
  intros Hurl Htok w'. subst w'.
  pose proof (connect_setup_token env w Hurl Htok) as Hset.
  destruct (connect_after_setup env fuel w) as (Huid & post & Hwire & Hkind);
    [rewrite Hset; reflexivity |].
  rewrite Hset in Huid, Hwire. cbn in Huid, Hwire.
  split; [exact Huid|]. eexists. rewrite Hwire, <- app_assoc. split; [reflexivity|].
  intros u p Hin. cbn in Hin.
  repeat (apply elem_of_cons in Hin as [Hin | Hin]; [discriminate Hin|]).
  destruct (Hkind _ Hin) as [(? & ? & ? & Heq) | Heq]; discriminate Heq.
Qed.

(** X12.  With a token but no [MATRIX_USER_ID] the adapter does not know its
    own id: the self check compares against the empty string, so on the
    connected channel every message event that names a sender and carries
    a valid time value, the adapter's own included, reaches the metadata
    callback. *)
Theorem token_without_user_id_suppresses_nothing env fuel w
    (ASSISTANT_NAME : string) (toISOString : Z -> string) ev room :
  truthy (MATRIX_HOMESERVER env) = true ->
  truthy (MATRIX_ACCESS_TOKEN env) = true ->
  truthy (MATRIX_USER_ID env) = false ->
  let w' := snd (connect T env fuel w) in
  connected w' = true ->
  getType ev = "m.room.message" ->
  getSender ev <> Some "" ->
  valid_time (getTs ev) = true ->
  userId w' = "" /\
  exists full,
    callbacks (snd (timelineHandler ASSISTANT_NAME toISOString ev (Some room) w')) =
      callbacks w' ++ metadata_of toISOString ev room :: full.
Proof.
  intros Hurl Htok Huser w' Hc Hty Hs Hts. subst w'.
  pose proof (connect_setup_token env w Hurl Htok) as Hset.
  destruct (connect_after_setup env fuel w) as (Huid & _);
    [rewrite Hset; reflexivity |].
  rewrite Hset in Huid. cbn in Huid.
  assert (Hempty : userId (snd (connect T env fuel w)) = "").
  { rewrite Huid. unfold truthy, or_else in *.
    destruct (MATRIX_USER_ID env) as [u|]; [|reflexivity].
    destruct (String.eqb u ""); [reflexivity | discriminate Huser]. }
  split; [exact Hempty|].
  destruct (timelineHandler_inv ASSISTANT_NAME toISOString ev (Some room)
              (snd (connect T env fuel w)))
    as (res & cbs & Hrun & [(_ & _ & Hq) | [(r' & _ & Hbad & _) |
         [(r' & (Hr & _) & _ & _ & _ & ->) |
          [(r' & b' & (Hr & _) & _ & _ & _ & _ & ->) |
           (r' & (Hr & _) & _ & _ & _ & _ & ->)]]]]);
    rewrite Hrun; cbn [snd callbacks set_callbacks].
  - rewrite Hempty in Hq. destruct Hq as [Hq | [Hq | [Hq | Hq]]]; congruence.
  - congruence.
  - injection Hr as <-. eauto.
  - injection Hr as <-. eauto.
  - injection Hr as <-. eauto.
Qed.

(** X13.  Once the password login has succeeded the adapter has taken the
    user id the server returned and rebuilt the client with the token of
    the login, however the sync ends afterwards and however far the flush
    has got; events of that user id are ignored. *)
Theorem password_login_adopts_user_id env fuel w resp
    (ASSISTANT_NAME : string) (toISOString : Z -> string) ev room :
  truthy (MATRIX_HOMESERVER env) = true ->
  truthy (MATRIX_ACCESS_TOKEN env) = false ->
  truthy (MATRIX_USERNAME env) && truthy (MATRIX_PASSWORD env) = true ->
  loginReply T = Ok resp ->
  let w' := snd (connect T env fuel w) in
  userId w' = user_id resp /\
  CreateClient (or_else (MATRIX_HOMESERVER env) "")
    (Some (access_token resp)) (Some (user_id resp)) ∈ wire w' /\
  (getSender ev = Some (user_id resp) ->
   timelineHandler ASSISTANT_NAME toISOString ev room w' = (Ok tt, w')).
Proof.
  intros Hurl Htok Hpw Hlogin w'. subst w'.
  assert (Hset : connect_setup T env w =
    (Ok tt,
     set_logs (logs w ++ [(info, "Logged in to Matrix")])
       (set_userId (user_id resp)
          (set_wire (wire w ++
             [CreateClient (or_else (MATRIX_HOMESERVER env) "") None None;
              Login (or_else (MATRIX_USERNAME env) "") (or_else (MATRIX_PASSWORD env) "");
              CreateClient (or_else (MATRIX_HOMESERVER env) "")
                (Some (access_token resp)) (Some (user_id resp));
              Subscribe "RoomMember.membership"; Subscribe "Room.timeline"]) w)))).
  { unfold connect_setup, client_login. rewrite Hurl, Htok, Hpw. run.
    rewrite Hlogin. cbn. rewrite <- !app_assoc. reflexivity. }
  destruct (connect_after_setup env fuel w) as (Huid & post & Hwire & _);
    [rewrite Hset; reflexivity |].
  rewrite Hset in Huid, Hwire. cbn in Huid, Hwire.
  split; [exact Huid|]. split.
  - rewrite Hwire, !elem_of_app, !elem_of_cons. auto 10.
  - intros Hs.
    destruct (timelineHandler_inv ASSISTANT_NAME toISOString ev room
                (snd (connect T env fuel w)))
      as (res & cbs & Hrun & [(-> & -> & _) | [(r & Hr & _) |
           [(r & Hr & _) | [(r & b & Hr & _) | (r & Hr & _)]]]]);
      try (destruct Hr as (_ & _ & Hne & _); rewrite Huid in Hne; contradiction).
    rewrite set_callbacks_id in Hrun. exact Hrun.
Qed.

(** X14.  [disconnect] keeps the queue.  From then on messages handed to
    [sendMessage] are queued in call order without any request, a flush is
    a no-op, and [isConnected] answers [false]. *)
Theorem disconnect_parks_messages msgs w :
  let w1 := snd (disconnect w) in
  let w2 := snd (sendAll T msgs w1) in
  fst (disconnect w) = Ok tt /\
  outgoingQueue w1 = outgoingQueue w /\
  fst (isConnected w1) = Ok false /\
  outgoingQueue w2 = outgoingQueue w ++ msgs /\
  transmissions (wire w2) = transmissions (wire w) /\
  forall fuel, flushOutgoingQueue T fuel w2 = Some (Ok tt, w2).
Proof.
  cbv zeta.
  assert (Hd : fst (disconnect w) = Ok tt /\
               connected (snd (disconnect w)) = false /\
               outgoingQueue (snd (disconnect w)) = outgoingQueue w /\
               transmissions (wire (snd (disconnect w))) = transmissions (wire w)).
  { run. destruct (existsb _ (wire w)); cbn;
      rewrite ?transmissions_app, ?app_nil_r; auto. }
  destruct Hd as (Hr & Hoff & Hq & Htr).
  destruct (sendAll_offline T msgs _ Hoff) as (_ & Hc2 & Hq2 & Hw2 & _).
  cbv zeta in *. rewrite Hq2, Hw2, Hq, Htr.
  repeat split; try assumption.
  - run. destruct (existsb _ (wire w)); reflexivity.
  - intros fuel. apply flush_done. unfold flush_guard. rewrite Hc2. apply andb_false_r.
Qed.

End Connecting.

Lemma startsWith_empty_body (a : string) : startsWith "" (a +:+ ":") = false.
Proof. destruct a; reflexivity. Qed.

Lemma or_else_unknown_nonempty (v : string) : or_else (Some v) "unknown" <> "".
Proof.
  unfold or_else. destruct (String.eqb_spec v "") as [->|Hv]; [discriminate | exact Hv].
Qed.

Section Classifying.

Variable ASSISTANT_NAME : string.
Variable toISOString : Z -> string.

(** X15.  A timeline event without a room, or of a type other than
    [m.room.message], is dropped before anything else is looked at: the
    handler returns and the world is as it was. *)
Theorem timeline_ignores_other_events ev room w :
  room = None \/ getType ev <> "m.room.message" ->
  timelineHandler ASSISTANT_NAME toISOString ev room w = (Ok tt, w).
Proof.
  intros H.
  assert (Hno : forall r, ~ survives ev room r w).
  { intros r (Hroom & Hty & _). destruct H; congruence. }
  destruct (timelineHandler_inv ASSISTANT_NAME toISOString ev room w)
    as (res & cbs & Hrun & [(-> & -> & _) | [(r & Hr & _) |
         [(r & Hr & _) | [(r & b & Hr & _) | (r & Hr & _)]]]]);
    try (exfalso; exact (Hno r Hr)).
  rewrite set_callbacks_id in Hrun. exact Hrun.
Qed.

(** X16.  Handling inbound events only ever calls back: whatever events
    arrive, and whether or not a run of the handler throws, at most two
    callbacks are made per event and the connection flag, the queue, the
    user id and the log of client calls are untouched.  A run throws only
    on a time value outside the range of [Date] or on a truthy body that is
    not a string. *)
Theorem timeline_only_calls_back evs w :
  (exists new,
     snd (timelineAll ASSISTANT_NAME toISOString evs w) =
       set_callbacks (callbacks w ++ new) w /\
     length new <= 2 * length evs) /\
  forall ev room e,
    fst (timelineHandler ASSISTANT_NAME toISOString ev room w) = Throw e ->
    valid_time (getTs ev) = false \/
    or_empty (getContent_body ev) = JsOther true.
Proof.
  split.
  - revert w. induction evs as [|[ev room] evs IH]; intros w.
    + exists []. rewrite set_callbacks_id. split; [reflexivity | cbn; lia].
    + cbn [timelineAll].
      destruct (timelineHandler_callbacks ASSISTANT_NAME toISOString ev room w)
        as (res & cbs & -> & Hcases).
      cbn [snd].
      destruct (IH (set_callbacks (callbacks w ++ cbs) w)) as (new & -> & Hlen).
      exists (cbs ++ new). cbn. rewrite app_assoc. split; [reflexivity|].
      rewrite length_app. cbn [length].
      assert (length cbs <= 2); [|lia].
      destruct Hcases as [-> | [(meta & ->) | (meta & j & m & -> & _)]]; cbn; lia.
  - intros ev room e He.
    destruct (timelineHandler_inv ASSISTANT_NAME toISOString ev room w)
      as (res & cbs & Hrun & [(-> & _) | [(r & _ & Hbad & _) |
           [(r & _ & _ & _ & -> & _) | [(r & b & _ & _ & _ & _ & -> & _) |
            (r & _ & _ & _ & Hbody & _)]]]]);
      rewrite Hrun in He; cbn in He; try discriminate He; auto.
Qed.

(** X17.  A message reaches the full-message callback only together with the
    metadata callback of the same event, for the same room id, which is also
    its [chat_jid]; it carries the timestamp given to the metadata callback,
    the event's id and sender (the empty string when missing), and a
    [sender_name] that is never empty. *)
Theorem forwarded_message_is_normalised ev room w cbs chatJid msg :
  callbacks (snd (timelineHandler ASSISTANT_NAME toISOString ev room w)) =
    callbacks w ++ cbs ->
  OnMessage chatJid msg ∈ cbs ->
  exists r,
    room = Some r /\ chatJid = roomId r /\ chat_jid msg = roomId r /\
    is_Some (registry w !! roomId r) /\
    cbs = [metadata_of toISOString ev r; OnMessage chatJid msg] /\
    timestamp msg = toISOString (getTs ev) /\
    id msg = or_else (getId ev) "" /\
    sender msg = or_else (getSender ev) "" /\
    sender_name msg <> "".
Proof.
  intros Hcbs Hin.
  destruct (timelineHandler_inv ASSISTANT_NAME toISOString ev room w)
    as (res & cbs' & Hrun & Hcases).
  rewrite Hrun in Hcbs. cbn in Hcbs. apply app_inv_head in Hcbs. subst cbs'.
  destruct Hcases as [(_ & -> & _) | [(r & _ & _ & _ & ->) |
       [(r & _ & _ & _ & _ & ->) | [(r & b & (Hroom & _) & _ & Hreg & _ & _ & ->) |
        (r & _ & _ & _ & _ & _ & ->)]]]];
    try (inversion Hin; fail);
    try (apply list_elem_of_singleton in Hin; discriminate Hin).
  apply elem_of_cons in Hin as [Hin | Hin]; [discriminate Hin|].
  apply list_elem_of_singleton in Hin. injection Hin as -> ->.
  exists r. cbn. repeat split; auto.
  apply or_else_unknown_nonempty.
Qed.

(** X18.  An event with no sender and no body, stamped with a valid time
    value, is tolerated: in a registered room whose member list has no entry
    for the empty id it is forwarded with sender [""], sender name
    ["unknown"], content [""] and not flagged as a bot message. *)
Theorem anonymous_empty_event_is_forwarded ev r w g :
  getType ev = "m.room.message" ->
  getSender ev = None ->
  or_empty (getContent_body ev) = JsString "" ->
  valid_time (getTs ev) = true ->
  getMember r "" = None ->
  connected w = true ->
  registry w !! roomId r = Some g ->
  exists msg,
    timelineHandler ASSISTANT_NAME toISOString ev (Some r) w =
      (Ok tt,
       set_callbacks
         (callbacks w ++ [metadata_of toISOString ev r; OnMessage (roomId r) msg]) w) /\
    sender msg = "" /\ sender_name msg = "unknown" /\
    content msg = "" /\ is_bot_message msg = false.
Proof.
  intros Hty Hs Hbody Hts Hmem Hc Hreg.
  destruct (timelineHandler_inv ASSISTANT_NAME toISOString ev (Some r) w)
    as (res & cbs & Hrun & [(_ & _ & Hq) | [(r' & _ & Hbad & _) |
         [(r' & (Hr & _) & _ & Hnone & _) |
          [(r' & b & (Hr & _) & _ & _ & Hb & -> & ->) |
           (r' & _ & _ & _ & Hb & _)]]]]).
  - destruct Hq as [Hq | [Hq | [Hq | Hq]]]; congruence.
  - congruence.
  - injection Hr as <-. congruence.
  - injection Hr as <-. rewrite Hbody in Hb. injection Hb as <-.
    eexists. split; [exact Hrun|]. cbn. rewrite Hs. cbn. rewrite Hmem. cbn.
    repeat split. apply startsWith_empty_body.
  - congruence.
Qed.

(** X19.  When a message is forwarded for an event that names its sender,
    its sender name is the display name of the sender's room member if that
    name is not empty, and the sender id itself if the room has no such
    member. *)
Theorem sender_name_prefers_member_name ev r w cbs chatJid msg s :
  callbacks (snd (timelineHandler ASSISTANT_NAME toISOString ev (Some r) w)) =
    callbacks w ++ cbs ->
  OnMessage chatJid msg ∈ cbs ->
  getSender ev = Some s -> s <> "" ->
  sender msg = s /\
  (forall m, getMember r s = Some m -> member_name m <> "" ->
     sender_name msg = member_name m) /\
  (getMember r s = None -> sender_name msg = s).
Proof.
  intros Hcbs Hin Hs Hne.
  destruct (timelineHandler_inv ASSISTANT_NAME toISOString ev (Some r) w)
    as (res & cbs' & Hrun & Hcases).
  rewrite Hrun in Hcbs. cbn in Hcbs. apply app_inv_head in Hcbs. subst cbs'.
  destruct Hcases as [(_ & -> & _) | [(r' & _ & _ & _ & ->) |
       [(r' & _ & _ & _ & _ & ->) | [(r' & b & (Hroom & _) & _ & _ & _ & _ & ->) |
        (r' & _ & _ & _ & _ & _ & ->)]]]];
    try (inversion Hin; fail);
    try (apply list_elem_of_singleton in Hin; discriminate Hin).
  injection Hroom as <-.
  apply elem_of_cons in Hin as [Hin | Hin]; [discriminate Hin|].
  apply list_elem_of_singleton in Hin. injection Hin as -> ->. cbn.
  rewrite Hs.
  assert (Hor : or_else (Some s) "" = s).
  { unfold or_else. destruct (String.eqb_spec s ""); [contradiction | reflexivity]. }
  rewrite Hor. split; [reflexivity|]. split.
  - intros m Hm Hname. rewrite Hm. cbn.
    destruct (String.eqb_spec (member_name m) ""); [contradiction|]. cbn.
    destruct (String.eqb_spec (member_name m) ""); [contradiction | reflexivity].
  - intros Hm. rewrite Hm. cbn.
    destruct (String.eqb_spec s ""); [contradiction | reflexivity].
Qed.

End Classifying.

Section Housekeeping.

(** X20.  [getJoinedRooms] lists the client's rooms one to one and in order;
    each entry is named by the room name, or by the room id when the room
    has no name, which is the name the metadata callback reports for events
    of that room. *)
Theorem getJoinedRooms_names_every_room (rooms : list Room)
    (toISOString : Z -> string) :
  map joined_roomId (getJoinedRooms rooms) = map roomId rooms /\
  forall i r, rooms !! i = Some r ->
    exists e,
      getJoinedRooms rooms !! i = Some e /\
      joined_roomId e = roomId r /\
      (room_name r <> "" -> joined_name e = room_name r) /\
      (room_name r = "" -> joined_name e = roomId r) /\
      forall ev, metadata_of toISOString ev r =
                 OnChatMetadata (roomId r) (toISOString (getTs ev)) (joined_name e).
Proof.
  unfold getJoinedRooms. split.
  - rewrite map_map. reflexivity.
  - intros i r Hi. eexists. rewrite list_lookup_fmap, Hi. split; [reflexivity|].
    cbn. unfold or_else. repeat split.
    + intros Hn. destruct (String.eqb_spec (room_name r) ""); [contradiction | reflexivity].
    + intros ->. reflexivity.
Qed.

(** X21.  [ownsJid] accepts exactly the ids that begin with an exclamation
    mark; the empty id is not owned. *)
Theorem ownsJid_iff_bang (jid : string) :
  (ownsJid jid = true <-> exists rest, jid = "!" +:+ rest) /\
  ownsJid "" = false.
Proof.
  split; [|reflexivity]. unfold ownsJid. apply startsWith_iff.
Qed.

(** X22.  The membership handler asks to join a room exactly when the
    membership is an invite addressed to the adapter's own user id.  It
    returns normally however the join settles; a failed join is logged as an
    error and changes nothing else. *)
Theorem membershipHandler_joins_own_invites joined member w :
  let '(r, w', calls) := membershipHandler joined member w in
  r = Ok tt /\
  (calls = [JoinRoom (member_roomId member)] <->
   membership member = "invite" /\ member_userId member = userId w) /\
  (calls = [] <->
   ~ (membership member = "invite" /\ member_userId member = userId w)) /\
  connected w' = connected w /\ outgoingQueue w' = outgoingQueue w /\
  wire w' = wire w /\ callbacks w' = callbacks w /\
  (forall err, joined = Rejected err -> calls <> [] ->
     logs w' = logs w ++ [(error, "Failed to auto-join room")]).
Proof.
  unfold membershipHandler.
  destruct (String.eqb_spec (membership member) "invite") as [Hm|Hm];
    destruct (String.eqb_spec (member_userId member) (userId w)) as [Hu|Hu]; cbn [andb].
  - split; [reflexivity|]. repeat split; auto; try discriminate;
      try (destruct joined; reflexivity).
    + intros H. exfalso. apply H. auto.
    + intros err -> _. reflexivity.
  - repeat split; auto; try discriminate; try tauto; intros err _ H; contradiction.
  - repeat split; auto; try discriminate; try tauto; intros err _ H; contradiction.
  - repeat split; auto; try discriminate; try tauto; intros err _ H; contradiction.
Qed.

(** X23.  [setTyping] is best effort and never throws.  Once [connect] has
    created the client it makes exactly one typing request, with a timeout
    of 30000 ms when typing starts and 0 when it stops, whether or not the
    channel is connected, and swallows a rejection.  Before that it makes no
    request at all.  The queue, the connection flag and the message log are
    never touched. *)
Theorem setTyping_is_best_effort typed room isTyping w :
  let '(r, w', calls) := setTyping typed room isTyping w in
  r = Ok tt /\
  calls =
    (if has_client w
     then [SendTyping room isTyping (if isTyping then 30000%Z else 0%Z)]
     else []) /\
  connected w' = connected w /\ outgoingQueue w' = outgoingQueue w /\
  wire w' = wire w /\ sends w' = sends w.
Proof.
  unfold setTyping. destruct (has_client w); [destruct typed|];
    unfold try_catch, throw, logger, modify, mret, M_ret; cbn; repeat split.
Qed.

End Housekeeping.

(** * The claims on concrete runs *)

(** C1, counterexample.  Two messages for the same room, the first one
    rejected once: it is fulfilled after the message queued behind it. *)
Lemma requeued_message_is_sent_after_a_later_one :
  jid qA1 = jid qA2 /\
  observe (flushOutgoingQueue T_fail_first 3 (online [qA1; qA2])) =
    Some (Ok tt, true, [], [(qA1, false); (qA2, true); (qA1, true)]).
Proof. split; vm_compute; reflexivity. Qed.

Lemma flush_tries_earlier_message_first_witness :
  (exists ok1, (qA1, ok1) ∈ [(qA1, false)]) /\
  ((qA1, true) ∈ [(qA1, true)] -> (qA1, false) ∈ [(qA1, false)]).
Proof.
  apply (flush_tries_earlier_message_first T_fail_first 3 (online [qA1; qA2])
           [] qA1 [] qA2 [] [(qA1, false)] true [(qA1, true)]).
  - reflexivity.
  - apply NoDup_cons. split.
    + intros H. apply list_elem_of_singleton in H. discriminate H.
    + apply NoDup_singleton.
  - vm_compute. reflexivity.
Defined.

(** C2, counterexample.  With the first transmission of [(A, m1)] rejected
    and that of [(B, m2)] fulfilled, no flush of [[(A, m1); (B, m2)]] on a
    channel that stays connected completes with [[(A, m1)]] in the queue:
    when the retry is fulfilled the flush ends with the queue empty, and
    when [(A, m1)] keeps being rejected the flush does not end. *)
Lemma flush_does_not_end_with_requeued_item :
  observe (flushOutgoingQueue T_fail_first 3 (online [qA1; qB2])) =
    Some (Ok tt, true, [], [(qA1, false); (qB2, true); (qA1, true)]) /\
  (forall fuel r w',
     flushOutgoingQueue T_fail_first fuel (online [qA1; qB2]) = Some (r, w') ->
     outgoingQueue w' <> [qA1]) /\
  (forall fuel,
     flushOutgoingQueue T_only_second fuel (online [qA1; qB2]) = None).
Proof.
  split; [|split].
  - vm_compute. reflexivity.
  - intros fuel r w' H.
    destruct (flush_connected_ends_empty T_fail_first fuel (online [qA1; qB2]) r w'
                ltac:(intros [|n]; reflexivity) eq_refl H) as [-> _].
    discriminate.
  - intros [|[|fuel]]; [vm_compute; reflexivity | vm_compute; reflexivity |].
    change (S (S fuel)) with (2 + fuel). rewrite flush_split.
    assert (Hs : sends (flush_iter T_only_second 2 (online [qA1; qB2])) = 2)
      by (vm_compute; reflexivity).
    assert (Hq : outgoingQueue (flush_iter T_only_second 2 (online [qA1; qB2])) = [qA1])
      by (vm_compute; reflexivity).
    apply flush_never_returns.
    + rewrite Hs. intros [|[|n]] Hn; [lia | lia |]. eexists. reflexivity.
    + vm_compute. reflexivity.
    + rewrite Hq. discriminate.
Qed.

Lemma flush_requeues_failed_head_at_tail_witness :
  outgoingQueue (flush_iter T_fail_first 2 (online [qA1; qB2])) = [qA1] /\
  flushOutgoingQueue T_fail_first 2 (online [qA1; qB2]) = None /\
  exists w',
    flushOutgoingQueue T_fail_first 3 (online [qA1; qB2]) = Some (Ok tt, w') /\
    outgoingQueue w' = [].
Proof.
  destruct (flush_requeues_failed_head_at_tail T_fail_first qA1 qB2
              (mkError "M_LIMIT_EXCEEDED") (online [qA1; qB2])
              eq_refl eq_refl eq_refl eq_refl)
    as ((Hq & _) & Hnone & Hretry).
  split; [exact Hq|]. split; [exact Hnone|].
  destruct (Hretry eq_refl 3 (le_n 3)) as (w' & Hrun & Hempty & _).
  exists w'. split; [exact Hrun | exact Hempty].
Defined.

Lemma queued_while_offline_flushed_in_order_witness :
  exists w2,
    onSync T_ok "PREPARED" 2 (snd (sendAll T_ok [qA1; qB2] (offline []))) =
      Some (Ok tt, w2) /\
    outgoingQueue w2 = [] /\
    transmissions (wire w2) = [(qA1, true); (qB2, true)].
Proof.
  destruct (queued_while_offline_flushed_in_order T_ok [qA1; qB2] 2 (offline [])
              eq_refl (fun k _ => eq_refl) (le_n 2))
    as (_ & _ & _ & w2 & Hrun & Hq & Htr).
  exists w2. split; [exact Hrun|]. split; [exact Hq | exact Htr].
Defined.

Lemma sendMessage_never_raises_witness :
  fst (sendMessage T_fail_first "!a:example.org" "m1" (offline [qB2])) = Ok tt /\
  outgoingQueue (snd (sendMessage T_fail_first "!a:example.org" "m1" (offline [qB2]))) =
    [qB2; qA1] /\
  outgoingQueue (snd (sendMessage T_fail_first "!a:example.org" "m1" (online [qB2]))) =
    [qB2; qA1].
Proof.
  split; [|split].
  - apply (sendMessage_never_raises T_fail_first "!a:example.org" "m1" (offline [qB2])).
  - apply (sendMessage_never_raises T_fail_first "!a:example.org" "m1" (offline [qB2])).
    reflexivity.
  - eapply (sendMessage_never_raises T_fail_first "!a:example.org" "m1" (online [qB2])).
    + reflexivity.
    + reflexivity.
Defined.

(** C9, counterexample.  [disconnect] is called while the request for the
    popped item is pending and the request is fulfilled: the loop exits and
    the item is not in the queue. *)
Lemma item_sent_during_disconnect_is_not_requeued :
  observe (flushOutgoingQueue T_hangup_ok 1 (online [qA1])) =
    Some (Ok tt, false, [], [(qA1, true)]).
Proof. vm_compute. reflexivity. Qed.

Lemma flush_stops_on_disconnect_keeps_item_witness :
  exists w',
    flushOutgoingQueue T_hangup_fail 1 (online [qA1; qB2]) = Some (Ok tt, w') /\
    connected w' = false /\
    outgoingQueue w' = [qB2; qA1].
Proof.
  destruct (flush_stops_on_disconnect_keeps_item T_hangup_fail 0 0
              (online [qA1; qB2]) qA1 [qB2] eq_refl eq_refl eq_refl)
    as (w' & Hrun & Hc & Hq & _).
  exists w'. split; [exact Hrun|]. split; [exact Hc | exact Hq].
Defined.

Lemma timeline_ignores_own_and_early_events_witness :
  callbacks (snd (timelineHandler "Andy" isoStub
                    (message_from "@bot:example.org" "Andy: done")
                    (Some roomA) listening)) = callbacks listening /\
  callbacks (snd (timelineHandler "Andy" isoStub annSaysHello
                    (Some roomA) (set_connected false listening))) =
    callbacks (set_connected false listening).
Proof.
  split.
  - apply (timeline_ignores_own_and_early_events "Andy" isoStub
             (message_from "@bot:example.org" "Andy: done") (Some roomA) listening).
    left. reflexivity.
  - apply (timeline_ignores_own_and_early_events "Andy" isoStub annSaysHello
             (Some roomA) (set_connected false listening)).
    right. reflexivity.
Defined.



Lemma forwarded_message_bot_flag_witness :
  or_empty (getContent_body annSaysHello) = JsString (content annHello) /\
  is_bot_message annHello = true.
Proof.
  destruct (forwarded_message_bot_flag "Andy" isoStub annSaysHello (Some roomA)
              listening
              [metadata_of isoStub annSaysHello roomA; OnMessage "!a:example.org" annHello]
              "!a:example.org" annHello) as (Hbody & _ & Hhello & _).
  - vm_compute. reflexivity.
  - apply elem_of_cons. right. apply elem_of_cons. left. reflexivity.
  - split; [exact Hbody | apply Hhello; reflexivity].
Defined.

Lemma connect_without_credentials_fails_fast_witness :
  exists w' new,
    connect T_ok envNoCredentials 0 (new_channel ∅) =
      (Throw (mkError
         "Either MATRIX_ACCESS_TOKEN or MATRIX_USERNAME+MATRIX_PASSWORD required"), w') /\
    wire w' = wire (new_channel ∅) ++ new /\
    (forall c, c ∈ new -> is_network_call c = false).
Proof.
  destruct (connect_without_credentials_fails_fast T_ok envNoCredentials 0
              (new_channel ∅) eq_refl eq_refl eq_refl)
    as (w' & new & Hrun & Hwire & Hnet & _).
  exists w', new. split; [exact Hrun|]. split; [exact Hwire | exact Hnet].
Defined.

(** With a token in the environment the same [connect] goes on to start the
    client and returns on [PREPARED]; one iteration of the flush it started
    later, what was queued has gone out.  Against a transport that rejects
    everything it returns all the same, and the flush keeps retrying. *)
Example connect_with_token_flushes :
  observe (Some (connect T_ok envToken 1 (offline [qA1]))) =
    Some (Ok tt, true, [], [(qA1, true)]) /\
  observe (Some (connect T_all_fail envToken 3 (offline [qA1]))) =
    Some (Ok tt, true, [qA1], [(qA1, false); (qA1, false); (qA1, false)]).
Proof. split; vm_compute; reflexivity. Qed.

(** * The further properties on concrete runs *)

Lemma connected_send_overtakes_queue_witness :
  transmissions (wire (snd (sendMessage T_ok "!a:example.org" "m2" (online [qA1])))) =
    transmissions (wire (online [qA1])) ++ [(qA2, true)] /\
  outgoingQueue (snd (sendMessage T_ok "!a:example.org" "m2" (online [qA1]))) =
    outgoingQueue (online [qA1]).
Proof.
  apply (connected_send_overtakes_queue T_ok "!a:example.org" "m2" (online [qA1]));
    reflexivity.
Defined.

Lemma flush_returns_drained_or_offline_witness :
  outgoingQueue (flush_iter T_hangup_fail 1 (online [qA1; qB2])) = [] \/
  connected (flush_iter T_hangup_fail 1 (online [qA1; qB2])) = false.
Proof.
  apply (flush_returns_drained_or_offline T_hangup_fail 1 (online [qA1; qB2])
           (Ok tt) (flush_iter T_hangup_fail 1 (online [qA1; qB2]))).
  vm_compute. reflexivity.
Defined.

Lemma flush_returns_after_last_rejection_witness :
  exists w', flushOutgoingQueue T_fail_twice 4 (online [qA1; qB2]) = Some (Ok tt, w').
Proof.
  apply (flush_returns_after_last_rejection T_fail_twice 2 4 (online [qA1; qB2])).
  - intros [|[|n]] Hn; cbn in Hn; [lia | lia | reflexivity].
  - cbn. lia.
Defined.

Lemma flush_retries_forever_while_rejected_witness :
  flushOutgoingQueue T_all_fail 7 (online [qA1]) = None /\
  sends (flush_iter T_all_fail 7 (online [qA1])) = sends (online [qA1]) + 7.
Proof.
  destruct (flush_retries_forever_while_rejected T_all_fail (online [qA1]))
    as [Hnone Hiter].
  - intros n _. eexists. reflexivity.
  - reflexivity.
  - discriminate.
  - split; [apply Hnone | apply Hiter].
Defined.

Lemma connect_requires_homeserver_witness :
  connect T_ok envNoServer 0 (offline [qA1]) =
    (Throw (mkError "MATRIX_HOMESERVER environment variable is required"),
     offline [qA1]).
Proof.
  apply (connect_requires_homeserver T_ok envNoServer 0 (offline [qA1])).
  reflexivity.
Defined.

Lemma connect_surfaces_login_error_witness :
  exists w',
    connect T_login_refused envPassword 0 (offline [qA1]) =
      (Throw (mkError "M_FORBIDDEN"), w') /\
    connected w' = false /\ outgoingQueue w' = [qA1].
Proof.
  destruct (connect_surfaces_login_error T_login_refused envPassword 0 (offline [qA1])
              (mkError "M_FORBIDDEN") eq_refl eq_refl eq_refl eq_refl)
    as (w' & Hrun & _ & _ & Hc & Hq).
  exists w'. split; [exact Hrun|]. split; [exact Hc | exact Hq].
Defined.

Lemma failed_connect_stays_offline_witness :
  connected (snd (connect T_sync_error envToken 0 (offline [qA1]))) = false /\
  outgoingQueue (snd (connect T_sync_error envToken 0 (offline [qA1]))) = [qA1].
Proof.
  destruct (failed_connect_stays_offline T_sync_error envToken 0 (offline [qA1])
              (mkError "Matrix sync failed with state: ERROR")
              (snd (connect T_sync_error envToken 0 (offline [qA1]))))
    as (Hc & Hq & _).
  - vm_compute. reflexivity.
  - split; [exact Hc | exact Hq].
Defined.

Lemma connect_returns_only_when_prepared_witness :
  syncSignal T_all_fail = SyncState "PREPARED".
Proof.
  apply (connect_returns_only_when_prepared T_all_fail envToken 3 (offline [qA1])
           (snd (connect T_all_fail envToken 3 (offline [qA1])))).
  vm_compute. reflexivity.
Defined.

Lemma token_skips_login_witness :
  userId (snd (connect T_all_fail envTokenOnly 3 (offline [qA1]))) = "".
Proof.
  apply (token_skips_login T_all_fail envTokenOnly 3 (offline [qA1])); reflexivity.
Defined.

Lemma token_without_user_id_suppresses_nothing_witness :
  userId (snd (connect T_ok envTokenOnly 0 (offline []))) = "" /\
  exists full,
    callbacks (snd (timelineHandler "Andy" isoStub
                      (message_from "@bot:example.org" "Andy: done") (Some roomA)
                      (snd (connect T_ok envTokenOnly 0 (offline []))))) =
      callbacks (snd (connect T_ok envTokenOnly 0 (offline []))) ++
      metadata_of isoStub (message_from "@bot:example.org" "Andy: done") roomA :: full.
Proof.
  apply (token_without_user_id_suppresses_nothing T_ok envTokenOnly 0 (offline [])).
  - reflexivity.
  - reflexivity.
  - reflexivity.
  - vm_compute. reflexivity.
  - reflexivity.
  - discriminate.
  - reflexivity.
Defined.

Lemma password_login_adopts_user_id_witness :
  userId (snd (connect T_sync_error envPassword 0 (offline []))) = "@bot:example.org".
Proof.
  apply (password_login_adopts_user_id T_sync_error envPassword 0 (offline [])
           botAccount "Andy" isoStub annSaysHello (Some roomA)); reflexivity.
Defined.

Lemma timeline_ignores_other_events_witness :
  timelineHandler "Andy" isoStub annSaysHello None listening = (Ok tt, listening).
Proof.
  apply (timeline_ignores_other_events "Andy" isoStub annSaysHello None listening).
  left. reflexivity.
Defined.

Lemma forwarded_message_is_normalised_witness :
  exists r,
    Some roomA = Some r /\ "!a:example.org" = roomId r /\ chat_jid annHello = roomId r.
Proof.
  destruct (forwarded_message_is_normalised "Andy" isoStub annSaysHello (Some roomA)
              listening
              [metadata_of isoStub annSaysHello roomA; OnMessage "!a:example.org" annHello]
              "!a:example.org" annHello) as (r & Hr & Hj & Hc & _).
  - vm_compute. reflexivity.
  - apply elem_of_cons. right. apply elem_of_cons. left. reflexivity.
  - exists r. split; [exact Hr|]. split; [exact Hj | exact Hc].
Defined.

Lemma anonymous_empty_event_is_forwarded_witness :
  exists msg,
    timelineHandler "Andy" isoStub bodyless (Some roomA) listening =
      (Ok tt,
       set_callbacks
         (callbacks listening ++
          [metadata_of isoStub bodyless roomA; OnMessage (roomId roomA) msg])
         listening) /\
    sender_name msg = "unknown" /\ content msg = "".
Proof.
  destruct (anonymous_empty_event_is_forwarded "Andy" isoStub bodyless roomA listening
              (GroupConfig "main") eq_refl eq_refl eq_refl eq_refl eq_refl eq_refl)
    as (msg & Hcb & _ & Hname & Hbody & _).
  - apply lookup_singleton_eq.
  - exists msg. split; [exact Hcb|]. split; [exact Hname | exact Hbody].
Defined.

Lemma sender_name_prefers_member_name_witness :
  sender annHello = "@ann:example.org" /\ sender_name annHello = "Ann".
Proof.
  destruct (sender_name_prefers_member_name "Andy" isoStub annSaysHello roomA listening
              [metadata_of isoStub annSaysHello roomA; OnMessage "!a:example.org" annHello]
              "!a:example.org" annHello "@ann:example.org")
    as (Hsender & Hmember & _).
  - vm_compute. reflexivity.
  - apply elem_of_cons. right. apply elem_of_cons. left. reflexivity.
  - reflexivity.
  - discriminate.
  - split; [exact Hsender|].
    apply (Hmember {| member_name := "Ann" |}); [reflexivity | discriminate].
Defined.

(** [setTyping] on a channel that was never connected, and on one that has
    a client. *)
Example setTyping_before_and_after_connect :
  setTyping (Rejected (mkError "M_LIMIT_EXCEEDED")) "!a:example.org" true
    (new_channel ∅) =
    (Ok tt,
     set_logs [(debug, "Failed to update typing status")] (new_channel ∅), []) /\
  snd (setTyping Resolved "!a:example.org" true (online [])) =
    [SendTyping "!a:example.org" true 30000%Z].
Proof. split; reflexivity. Qed.
